(** * Tool Integration demo ([Tool Integration/tools_demo.py])

    A shallow embedding of the four workflow nodes ([enhance_query_node],
    [search_tool_node], [summarize_node], [format_output_node]), of the
    compiled linear workflow and of the test loop that drives it, followed by
    the properties of the pipeline.

    Conventions of the embedding.
    - A Python [str] is a [string] holding its UTF-8 encoding.  What Python
      does by character ([str.strip()], [title[:50]], [len(summary)]) is done
      on the characters of the encoding ([code_points]), and the white space
      of [str.strip()] is Python's: the 29 code points for which
      [str.isspace()] holds, ASCII or not.
    - A search result is a Python dict with string keys: a [gmap string string].
    - [ToolState] is the [TypedDict] of the script, a record with its four
      fields; the partial dict a node returns is a [ToolUpdate].
    - The language model and the search service are outside the program.  A
      node is a value of [prog]: a tree of the calls it makes ([print],
      [llm.invoke], [ddgs.text]) whose answers come from the environment.
      [run] plays such a tree against arbitrary services and records what
      was printed and what was asked.
    - An [exn] is an instance of a subclass of Python's [Exception]; [str(e)]
      is its message. *)

From Stdlib Require Import Ascii NArith.
From stdpp Require Import base strings list gmap pretty.

Open Scope string_scope.
Open Scope list_scope.

(** ** Python strings *)

Definition LF : string := String "010"%char EmptyString.

(** [s * n] *)
Fixpoint str_mul (s : string) (n : nat) : string :=
  match n with
  | O => ""
  | S n' => s +:+ str_mul s n'
  end.

(** *** Characters

    A byte [10xxxxxx] continues the character that the byte before it
    belongs to; every other byte starts a character. *)
Definition is_continuation (b : ascii) : bool :=
  let n := nat_of_ascii b in
  ((128 <=? n) && (n <? 192))%nat.

Definition continues (s : string) : bool :=
  match s with
  | EmptyString => false
  | String b _ => is_continuation b
  end.

(** The characters (code points) of a string, in order, each as the bytes
    that encode it. *)
Fixpoint code_points (s : string) : list string :=
  match s with
  | EmptyString => []
  | String b s' =>
      match code_points s' with
      | c :: cs => if continues s' then String b c :: cs else String b EmptyString :: c :: cs
      | [] => [String b EmptyString]
      end
  end.

(** [len(s)] *)
Definition str_len (s : string) : nat := length (code_points s).

(** The UTF-8 encoding of a code point. *)
Definition utf8 (cp : N) : string :=
  let byte (n : N) := ascii_of_N n in
  (if cp <? 0x80 then String (byte cp) EmptyString
   else if cp <? 0x800 then
     String (byte (0xC0 + cp / 0x40)) (String (byte (0x80 + cp mod 0x40)) EmptyString)
   else if cp <? 0x10000 then
     String (byte (0xE0 + cp / 0x1000))
       (String (byte (0x80 + (cp / 0x40) mod 0x40))
          (String (byte (0x80 + cp mod 0x40)) EmptyString))
   else
     String (byte (0xF0 + cp / 0x40000))
       (String (byte (0x80 + (cp / 0x1000) mod 0x40))
          (String (byte (0x80 + (cp / 0x40) mod 0x40))
             (String (byte (0x80 + cp mod 0x40)) EmptyString))))%N.

(** The code points for which [str.isspace()] holds, which are those that
    [str.strip()] removes: tab to carriage return, the four separators
    U+001C to U+001F, space, next line, no-break space, ogham space mark,
    en quad to hair space, line and paragraph separator, narrow no-break
    space, medium mathematical space and ideographic space. *)
Definition whitespace_code_points : list N :=
  [0x09; 0x0A; 0x0B; 0x0C; 0x0D; 0x1C; 0x1D; 0x1E; 0x1F; 0x20; 0x85; 0xA0; 0x1680;
   0x2000; 0x2001; 0x2002; 0x2003; 0x2004; 0x2005; 0x2006; 0x2007; 0x2008; 0x2009; 0x200A;
   0x2028; 0x2029; 0x202F; 0x205F; 0x3000]%N.

Definition whitespace_characters : list string := utf8 <$> whitespace_code_points.

(** [c.isspace()] for one character *)
Definition isspace (c : string) : bool := bool_decide (c ∈ whitespace_characters).

(** Dropping the white space at the left and at the right end of a list of
    characters. *)
Fixpoint lstrip_chars (cs : list string) : list string :=
  match cs with
  | [] => []
  | c :: cs' => if isspace c then lstrip_chars cs' else cs
  end.

Fixpoint rstrip_chars (cs : list string) : list string :=
  match cs with
  | [] => []
  | c :: cs' =>
      match rstrip_chars cs' with
      | [] => if isspace c then [] else [c]
      | r => c :: r
      end
  end.

(** [s.strip()] *)
Definition strip (s : string) : string :=
  String.concat "" (rstrip_chars (lstrip_chars (code_points s))).

(** [sep.join(l)] *)
Definition join (sep : string) (l : list string) : string := String.concat sep l.

(** [s[:n]] *)
Definition str_prefix (n : nat) (s : string) : string :=
  String.concat "" (take n (code_points s)).

(** Truth value of a string: the empty string is falsy. *)
Definition truthy (s : string) : bool :=
  match s with
  | EmptyString => false
  | String _ _ => true
  end.

(** [a or b] on strings *)
Definition py_or (a b : string) : string := if truthy a then a else b.

(** Every character of [s] is white space. *)
Definition all_space (s : string) : bool := forallb isspace (code_points s).

(** The first, the last character of [s] is white space. *)
Definition starts_with_space (s : string) : bool :=
  match code_points s with
  | c :: _ => isspace c
  | [] => false
  end.

Definition ends_with_space (s : string) : bool :=
  match last (code_points s) with
  | Some c => isspace c
  | None => false
  end.

(** A whole character: a byte that starts one, then continuation bytes. *)
Fixpoint all_continuation (s : string) : bool :=
  match s with
  | EmptyString => true
  | String b s' => is_continuation b && all_continuation s'
  end.

Definition well_formed (c : string) : bool :=
  match c with
  | EmptyString => false
  | String b rest => negb (is_continuation b) && all_continuation rest
  end.

(** A character as [code_points] cuts it: any byte, then continuation
    bytes. *)
Definition started (c : string) : bool :=
  match c with
  | EmptyString => false
  | String _ rest => all_continuation rest
  end.

(** A list of characters as [code_points] gives it: only the first may
    start with a stray continuation byte. *)
Definition characters (cs : list string) : Prop :=
  match cs with
  | [] => True
  | c :: cs' => started c = true ∧ Forall (λ c', well_formed c' = true) cs'
  end.

(** ** Exceptions and search results *)

Record exn : Type := Exception { exn_class : string; exn_message : string }.

(** [str(e)] *)
Definition str_of_exn (e : exn) : string := exn_message e.

(** One entry of [ddgs.text(...)]: a dict with keys such as ['title'],
    ['href'], ['body']. *)
Abbreviation result := (gmap string string).

(** [d.get(key, default)] *)
Definition dict_get (d : result) (key dflt : string) : string :=
  default dflt (d !! key).

(** [enumerate(l, start)] *)
Fixpoint enumerate {A : Type} (l : list A) (start : nat) : list (nat * A) :=
  match l with
  | [] => []
  | x :: l' => (start, x) :: enumerate l' (S start)
  end.

(** ** The state of the workflow *)

Record ToolState : Type := mkToolState {
  query : string;
  enhanced_query : string;
  search_results : list string;
  summary : string
}.

(** The dict a node returns: the keys it holds are the fields it writes. *)
Record ToolUpdate : Type := mkToolUpdate {
  upd_query : option string;
  upd_enhanced_query : option string;
  upd_search_results : option (list string);
  upd_summary : option string
}.

(** [{"enhanced_query": enhanced}] *)
Definition set_enhanced_query (enhanced : string) : ToolUpdate :=
  mkToolUpdate None (Some enhanced) None None.

(** [{"search_results": search_results}] *)
Definition set_search_results (l : list string) : ToolUpdate :=
  mkToolUpdate None None (Some l) None.

(** [{"summary": summary}] *)
Definition set_summary (s : string) : ToolUpdate :=
  mkToolUpdate None None None (Some s).

(** A node that returns the state itself returns every key. *)
Definition whole_state (state : ToolState) : ToolUpdate :=
  mkToolUpdate (Some (query state)) (Some (enhanced_query state))
               (Some (search_results state)) (Some (summary state)).

(** The keys of an update. *)
Definition keys (u : ToolUpdate) : list string :=
  (if upd_query u is Some _ then ["query"] else []) ++
  (if upd_enhanced_query u is Some _ then ["enhanced_query"] else []) ++
  (if upd_search_results u is Some _ then ["search_results"] else []) ++
  (if upd_summary u is Some _ then ["summary"] else []).

(** The workflow engine merges the returned dict into the state: a key of
    the update replaces the field, the other fields stay. *)
Definition merge (state : ToolState) (u : ToolUpdate) : ToolState :=
  mkToolState (default (query state) (upd_query u))
              (default (enhanced_query state) (upd_enhanced_query u))
              (default (search_results state) (upd_search_results u))
              (default (summary state) (upd_summary u)).

(** ** Programs over the external services *)

Inductive prog (A : Type) : Type :=
| Ret (a : A)
| Raise (e : exn)
| PrintLine (text : string) (k : prog A)
| LlmInvoke (prompt : string) (k : exn + string → prog A)
| DdgsText (keywords : string) (max_results : nat)
           (k : exn + list result → prog A).

Arguments Ret {A} a.
Arguments Raise {A} e.
Arguments PrintLine {A} text k.
Arguments LlmInvoke {A} prompt k.
Arguments DdgsText {A} keywords max_results k.

Fixpoint bind {A B : Type} (p : prog A) (f : A → prog B) : prog B :=
  match p with
  | Ret a => f a
  | Raise e => Raise e
  | PrintLine text k => PrintLine text (bind k f)
  | LlmInvoke prompt k => LlmInvoke prompt (λ r, bind (k r) f)
  | DdgsText keywords n k => DdgsText keywords n (λ r, bind (k r) f)
  end.

#[global] Instance prog_ret : MRet prog := @Ret.
#[global] Instance prog_bind : MBind prog := λ A B f p, bind p f.

(** [try: body  except Exception as e: handler e] *)
Fixpoint try_except {A : Type} (body : prog A) (handler : exn → prog A) : prog A :=
  match body with
  | Ret a => Ret a
  | Raise e => handler e
  | PrintLine text k => PrintLine text (try_except k handler)
  | LlmInvoke prompt k => LlmInvoke prompt (λ r, try_except (k r) handler)
  | DdgsText keywords n k => DdgsText keywords n (λ r, try_except (k r) handler)
  end.

(** A call returns the answer of the service or raises its exception. *)
Definition returned {A : Type} (r : exn + A) : prog A :=
  match r with
  | inl e => Raise e
  | inr a => Ret a
  end.

(** [print(text)] *)
Definition print (text : string) : prog unit := PrintLine text (Ret tt).

(** [llm.invoke(prompt).content] *)
Definition llm_invoke (prompt : string) : prog string :=
  LlmInvoke prompt returned.

(** [with DDGS() as ddgs: list(ddgs.text(keywords, max_results=n))] *)
Definition ddgs_text (keywords : string) (max_results : nat) : prog (list result) :=
  DdgsText keywords max_results returned.

(** ** The four nodes *)

Definition enhance_prompt (query : string) : string :=
  "Enhance this search query to get better results. " +:+ LF +:+
  "    Make it more specific and add relevant keywords." +:+ LF +:+
  "    Original query: " +:+ query +:+ LF +:+
  "    Enhanced query (return only the query, no explanation):".

Definition enhance_query_node (state : ToolState) : prog ToolUpdate :=
  print (LF +:+ "🎯 Enhance Query Node") ;;
  print ("   Original query: '" +:+ query state +:+ "'") ;;
  let prompt := enhance_prompt (query state) in
  content ← llm_invoke prompt;
  let enhanced := strip content in
  print ("   Enhanced query: '" +:+ enhanced +:+ "'") ;;
  mret (set_enhanced_query enhanced).

(** [f"{i}. {title}: {body}"] *)
Definition format_result (i : nat) (title body : string) : string :=
  pretty i +:+ ". " +:+ title +:+ ": " +:+ body.

(** The body of [for i, result in enumerate(results, 1)], started with the
    list [search_results] built so far. *)
Fixpoint collect_results (items : list (nat * result)) (search_results : list string)
    : prog (list string) :=
  match items with
  | [] => mret search_results
  | (i, result) :: items' =>
      let title := dict_get result "title" "No title" in
      let body := dict_get result "body" "No description" in
      let search_results := (search_results ++ [format_result i title body]) in
      print ("   → Found result " +:+ pretty i +:+ ": " +:+ str_prefix 50 title +:+ "...") ;;
      collect_results items' search_results
  end.

Definition no_results_found : string := "No results found. Try a different query.".

Definition search_error (e : exn) : string :=
  "Search error: " +:+ str_of_exn e +:+ ". Using fallback data.".

(** [state["enhanced_query"] or state["query"]] *)
Definition search_query (state : ToolState) : string :=
  py_or (enhanced_query state) (query state).

Definition search_tool_node (state : ToolState) : prog ToolUpdate :=
  print (LF +:+ "🦆 Search Tool Node (DuckDuckGo)") ;;
  let query := search_query state in
  print ("   Searching for: '" +:+ query +:+ "'") ;;
  search_results ←
    try_except
      (results ← ddgs_text query 3;
       search_results ← collect_results (enumerate results 1) [];
       match search_results with
       | [] =>
           let search_results := [no_results_found] in
           print "   → No results found" ;;
           mret search_results
       | _ :: _ => mret search_results
       end)
      (λ e,
       print ("   ⚠️ Search error: " +:+ str_of_exn e) ;;
       mret [search_error e]);
  mret (set_search_results search_results).

Definition summarize_prompt (query results_text : string) : string :=
  "Summarize these search results for the query '" +:+ query +:+ "':" +:+ LF +:+
  LF +:+
  results_text +:+ LF +:+
  LF +:+
  "Provide a concise, helpful summary:".

Definition summarize_node (state : ToolState) : prog ToolUpdate :=
  print (LF +:+ "📝 Summarize Node") ;;
  let results_text := join LF (search_results state) in
  let prompt := summarize_prompt (query state) results_text in
  content ← llm_invoke prompt;
  let summary := content in
  print ("   → Generated summary (" +:+ pretty (str_len summary) +:+ " chars)") ;;
  mret (set_summary summary).

(** The report text [output] of the formatter. *)
Definition output (state : ToolState) : string :=
  LF +:+
  str_mul "=" 50 +:+ LF +:+
  "🔍 SEARCH RESULTS" +:+ LF +:+
  str_mul "=" 50 +:+ LF +:+
  "Query: " +:+ query state +:+ LF +:+
  "Enhanced: " +:+ enhanced_query state +:+ LF +:+
  LF +:+
  "Results Found: " +:+ pretty (length (search_results state)) +:+ LF +:+
  LF +:+
  "Summary:" +:+ LF +:+
  summary state +:+ LF +:+
  str_mul "=" 50 +:+ LF.

Definition format_output_node (state : ToolState) : prog ToolUpdate :=
  print (LF +:+ "📤 Format Output Node") ;;
  print (output state) ;;
  mret (whole_state state).

(** ** The compiled workflow and the test loop *)

(** [START -> enhance_query -> search_tool -> summarize -> format -> END] *)
Definition workflow : list (string * (ToolState → prog ToolUpdate)) :=
  [("enhance_query", enhance_query_node);
   ("search_tool", search_tool_node);
   ("summarize", summarize_node);
   ("format", format_output_node)].

(** Invoking a chain of nodes: each node gets the current state and its
    returned dict is merged before the next node runs. *)
Fixpoint invoke (nodes : list (string * (ToolState → prog ToolUpdate)))
    (state : ToolState) : prog ToolState :=
  match nodes with
  | [] => mret state
  | (_, node) :: nodes' => u ← node state; invoke nodes' (merge state u)
  end.

(** [app.invoke(initial_state)] *)
Definition app_invoke (initial_state : ToolState) : prog ToolState :=
  invoke workflow initial_state.

Definition test_queries : list string :=
  ["What is LangGraph used for?";
   "How to build AI agents?";
   "DuckDuckGo search API"].

Definition initial_state (query : string) : ToolState :=
  mkToolState query "" [] "".

Definition search_completed : string := "✅ Search completed successfully".

Definition error_during_search (e : exn) : string :=
  "❌ Error during search: " +:+ str_of_exn e.

(** The body of [for query in test_queries]. *)
Definition test_query (query : string) : prog unit :=
  print (LF +:+ "🔎 Testing: '" +:+ query +:+ "'") ;;
  print (str_mul "-" 40) ;;
  let initial_state := initial_state query in
  try_except
    (result ← app_invoke initial_state;
     print search_completed)
    (λ e, print (error_during_search e)).

Fixpoint for_each (queries : list string) (body : string → prog unit) : prog unit :=
  match queries with
  | [] => mret tt
  | query :: queries' => body query ;; for_each queries' body
  end.

Definition run_tests : prog unit := for_each test_queries test_query.

(** ** Running a program against the services *)

(** What the environment sees of a run, in order. *)
Inductive obs : Type :=
| Printed (text : string)
| AskedLlm (prompt : string) (answer : exn + string)
| AskedDdgs (keywords : string) (max_results : nat) (answer : exn + list result).

(** The two services: each call answers with a value or an exception and
    may change the state of the world. *)
Record services (World : Type) : Type := mkServices {
  llm_answer : string → World → (exn + string) * World;
  ddgs_answer : string → nat → World → (exn + list result) * World
}.

Arguments llm_answer {World} s prompt w.
Arguments ddgs_answer {World} s keywords max_results w.

Record ran (World A : Type) : Type := mkRan {
  outcome : exn + A;
  trace : list obs;
  world_after : World
}.

Arguments mkRan {World A} outcome trace world_after.
Arguments outcome {World A} r.
Arguments trace {World A} r.
Arguments world_after {World A} r.

Definition seen {World A : Type} (o : obs) (r : ran World A) : ran World A :=
  mkRan (outcome r) (o :: trace r) (world_after r).

Fixpoint run {World A : Type} (svc : services World) (p : prog A) (w : World)
    : ran World A :=
  match p with
  | Ret a => mkRan (inr a) [] w
  | Raise e => mkRan (inl e) [] w
  | PrintLine text k => seen (Printed text) (run svc k w)
  | LlmInvoke prompt k =>
      let '(answer, w') := llm_answer svc prompt w in
      seen (AskedLlm prompt answer) (run svc (k answer) w')
  | DdgsText keywords n k =>
      let '(answer, w') := ddgs_answer svc keywords n w in
      seen (AskedDdgs keywords n answer) (run svc (k answer) w')
  end.

(** The lines printed, the prompts sent to the language model and the
    queries sent to the search service during a run. *)
Definition printed (t : list obs) : list string :=
  omap (λ o, if o is Printed text then Some text else None) t.

Definition llm_prompts (t : list obs) : list string :=
  omap (λ o, if o is AskedLlm prompt _ then Some prompt else None) t.

Definition ddgs_queries (t : list obs) : list (string * nat) :=
  omap (λ o, if o is AskedDdgs keywords n _ then Some (keywords, n) else None) t.

(** The enhancer's prompts among the prompts of a run: the two templates of
    the script start differently. *)
Definition is_enhance_prompt (prompt : string) : bool :=
  String.prefix "Enhance this search query" prompt.

(** Sequencing of two runs, as [bind] does it. *)
Definition and_then {World A B : Type} (r1 : ran World A)
    (f : A → World → ran World B) : ran World B :=
  match outcome r1 with
  | inl e => mkRan (inl e) (trace r1) (world_after r1)
  | inr a =>
      let r2 := f a (world_after r1) in
      mkRan (outcome r2) (trace r1 ++ trace r2) (world_after r2)
  end.

(** Recovery of a run, as [try_except] does it. *)
Definition or_else {World A : Type} (r1 : ran World A)
    (h : exn → World → ran World A) : ran World A :=
  match outcome r1 with
  | inr a => mkRan (inr a) (trace r1) (world_after r1)
  | inl e =>
      let r2 := h e (world_after r1) in
      mkRan (outcome r2) (trace r1 ++ trace r2) (world_after r2)
  end.

(** The entry of [search_results] that the specification asks for the
    result at (0-based) position [pos]: 1-based index, title and body with
    their placeholders. *)
Definition expected_entry (pos : nat) (r : result) : string :=
  let title := match r !! "title" with Some t => t | None => "No title" end in
  let body := match r !! "body" with Some b => b | None => "No description" end in
  pretty (pos + 1) +:+ ". " +:+ title +:+ ": " +:+ body.

(** [needle] occurs in [text]. *)
Definition occurs_in (needle text : string) : Prop :=
  ∃ before after, text = before +:+ needle +:+ after.

(** ** The completion marker

    The last block of the script writes a file.  The file system is outside
    the program like the two services: [open], [write] and the [close] that
    ends the [with] block are calls answered by the environment, each with
    success or an exception. *)

Inductive fileprog (A : Type) : Type :=
| FRet (a : A)
| FRaise (e : exn)
| FPrint (text : string) (k : fileprog A)
| FOpen (path mode : string) (k : exn + unit → fileprog A)
| FWrite (text : string) (k : exn + unit → fileprog A)
| FClose (k : exn + unit → fileprog A).

Arguments FRet {A} a.
Arguments FRaise {A} e.
Arguments FPrint {A} text k.
Arguments FOpen {A} path mode k.
Arguments FWrite {A} text k.
Arguments FClose {A} k.

Fixpoint file_bind {A B : Type} (p : fileprog A) (f : A → fileprog B) : fileprog B :=
  match p with
  | FRet a => f a
  | FRaise e => FRaise e
  | FPrint text k => FPrint text (file_bind k f)
  | FOpen path mode k => FOpen path mode (λ r, file_bind (k r) f)
  | FWrite text k => FWrite text (λ r, file_bind (k r) f)
  | FClose k => FClose (λ r, file_bind (k r) f)
  end.

#[global] Instance fileprog_ret : MRet fileprog := @FRet.
#[global] Instance fileprog_bind : MBind fileprog := λ A B f p, file_bind p f.

(** [try: body  except Exception as e: handler e] *)
Fixpoint file_try_except {A : Type} (body : fileprog A) (handler : exn → fileprog A)
    : fileprog A :=
  match body with
  | FRet a => FRet a
  | FRaise e => handler e
  | FPrint text k => FPrint text (file_try_except k handler)
  | FOpen path mode k => FOpen path mode (λ r, file_try_except (k r) handler)
  | FWrite text k => FWrite text (λ r, file_try_except (k r) handler)
  | FClose k => FClose (λ r, file_try_except (k r) handler)
  end.

Definition file_returned (r : exn + unit) : fileprog unit :=
  match r with
  | inl e => FRaise e
  | inr _ => FRet tt
  end.

(** [f.write(text)] *)
Definition file_write (text : string) : fileprog unit := FWrite text file_returned.

(** Leaving a [with open(...)] block closes the file, also when the block
    raised; an exception of the close itself is the one that goes on. *)
Fixpoint closing {A : Type} (block : fileprog A) : fileprog A :=
  match block with
  | FRet a => FClose (λ r, match r with inl e => FRaise e | inr _ => FRet a end)
  | FRaise e => FClose (λ r, match r with inl e' => FRaise e' | inr _ => FRaise e end)
  | FPrint text k => FPrint text (closing k)
  | FOpen path mode k => FOpen path mode (λ r, closing (k r))
  | FWrite text k => FWrite text (λ r, closing (k r))
  | FClose k => FClose (λ r, closing (k r))
  end.

(** [with open(path, mode) as f: block] *)
Definition with_open {A : Type} (path mode : string) (block : fileprog A) : fileprog A :=
  FOpen path mode (λ r, match r with inl e => FRaise e | inr _ => closing block end).

Definition marker_saved : string :=
  LF +:+ "✅ Completion marker saved to tools-complete.txt".

Definition marker_skipped (e : exn) : string :=
  LF +:+ "✅ Task 7: Tool integration demonstration completed! (Note: File save skipped: " +:+
  str_of_exn e +:+ ")".

(** The block [# Save completion marker] at the end of the script. *)
Definition save_completion_marker : fileprog unit :=
  file_try_except
    (with_open "tools-complete.txt" "w"
       (file_write ("TOOLS_COMPLETE" +:+ LF) ;;
        file_write ("Task 7: Tool integration completed successfully" +:+ LF)) ;;
     FPrint marker_saved (FRet tt))
    (λ e, FPrint (marker_skipped e) (FRet tt)).

(** What the environment sees of the block. *)
Inductive file_obs : Type :=
| FilePrinted (text : string)
| Opened (path mode : string) (answer : exn + unit)
| Wrote (text : string) (answer : exn + unit)
| Closed (answer : exn + unit).

Record filesystem (World : Type) : Type := mkFilesystem {
  open_answer : string → string → World → (exn + unit) * World;
  write_answer : string → World → (exn + unit) * World;
  close_answer : World → (exn + unit) * World
}.

Arguments open_answer {World} f path mode w.
Arguments write_answer {World} f text w.
Arguments close_answer {World} f w.

Record file_ran (World A : Type) : Type := mkFileRan {
  file_outcome : exn + A;
  file_trace : list file_obs;
  file_world_after : World
}.

Arguments mkFileRan {World A} file_outcome file_trace file_world_after.
Arguments file_outcome {World A} _.
Arguments file_trace {World A} _.
Arguments file_world_after {World A} _.

Definition file_seen {World A : Type} (o : file_obs) (r : file_ran World A)
    : file_ran World A :=
  mkFileRan (file_outcome r) (o :: file_trace r) (file_world_after r).

Fixpoint file_run {World A : Type} (fs : filesystem World) (p : fileprog A) (w : World)
    : file_ran World A :=
  match p with
  | FRet a => mkFileRan (inr a) [] w
  | FRaise e => mkFileRan (inl e) [] w
  | FPrint text k => file_seen (FilePrinted text) (file_run fs k w)
  | FOpen path mode k =>
      let '(answer, w') := open_answer fs path mode w in
      file_seen (Opened path mode answer) (file_run fs (k answer) w')
  | FWrite text k =>
      let '(answer, w') := write_answer fs text w in
      file_seen (Wrote text answer) (file_run fs (k answer) w')
  | FClose k =>
      let '(answer, w') := close_answer fs w in
      file_seen (Closed answer) (file_run fs (k answer) w')
  end.

(** The text handed to successful writes, in order: what the file holds
    after a run that opened it with mode ['w']. *)
Definition written (t : list file_obs) : string :=
  String.concat "" (omap (λ o, if o is Wrote text (inr _) then Some text else None) t).

Definition file_printed (t : list file_obs) : list string :=
  omap (λ o, if o is FilePrinted text then Some text else None) t.

Definition opens_succeeded (t : list file_obs) : nat :=
  length (omap (λ o, if o is Opened _ _ (inr _) then Some o else None) t).

Definition closes (t : list file_obs) : nat :=
  length (omap (λ o, if o is Closed _ then Some o else None) t).

(** ** Further observations of a run *)

(** The calls of a run, in order, without the printed lines. *)
Definition calls (t : list obs) : list obs :=
  omap (λ o, if o is Printed _ then None else Some o) t.

(** What the search stage is to store for an answer of the search service:
    the fallback entry, the placeholder, or one entry per result. *)
Definition entries_for (answer : exn + list result) : list string :=
  match answer with
  | inl e => ["Search error: " +:+ exn_message e +:+ ". Using fallback data."]
  | inr [] => ["No results found. Try a different query."]
  | inr results => imap expected_entry results
  end.

(** [prefix] is a prefix of [s], as a proposition. *)
Definition is_prefix_of (prefix s : string) : Prop := ∃ rest, s = prefix +:+ rest.

(** ** Sample services for the scenarios of the specification

    The world counts the calls made so far. *)

Definition sample_results : list result :=
  [ {[ "title" := "A"; "body" := "B" ]}; {[ "title" := "C"; "body" := "D" ]} ].

(** A language model that gives [enhanced] to the enhancer's prompt and
    [summ] to any other prompt, and a search service that gives [found]. *)
Definition sample_services (enhanced : exn + string) (found : exn + list result)
    (summ : exn + string) : services nat :=
  mkServices nat
    (λ prompt calls, (if String.prefix "Enhance" prompt then enhanced else summ, S calls))
    (λ _ _ calls, (found, S calls)).

Definition working_services : services nat :=
  sample_services (inr "test explained") (inr sample_results) (inr "Summary text").

Definition timeout_services : services nat :=
  sample_services (inr "test explained") (inl (Exception "ConnectionError" "timeout"))
                  (inr "Summary text").

Definition empty_services : services nat :=
  sample_services (inr "test explained") (inr []) (inr "Summary text").

(** File systems: the world counts the calls.  One that works, one where
    the file cannot be opened, and one where the second write fails. *)
Definition working_filesystem : filesystem nat :=
  mkFilesystem nat (λ _ _ n, (inr tt, S n)) (λ _ n, (inr tt, S n)) (λ n, (inr tt, S n)).

Definition readonly_filesystem : filesystem nat :=
  mkFilesystem nat (λ _ _ n, (inl (Exception "PermissionError"
                                         "[Errno 13] Permission denied: 'tools-complete.txt'"),
                         S n))
               (λ _ n, (inr tt, S n)) (λ n, (inr tt, S n)).

Definition full_filesystem : filesystem nat :=
  mkFilesystem nat (λ _ _ n, (inr tt, S n))
               (λ _ n, (if (n =? 2)%nat then inl (Exception "OSError" "[Errno 28] No space left on device")
                        else inr tt, S n))
               (λ n, (inr tt, S n)).

(** More results than the three asked for. *)
Definition five_results : list result :=
  [ {[ "title" := "A"; "body" := "a" ]}; {[ "title" := "B"; "body" := "b" ]};
    {[ "title" := "C"; "body" := "c" ]}; {[ "title" := "D"; "body" := "d" ]};
    {[ "title" := "E"; "body" := "e" ]} ].

Definition generous_services : services nat :=
  sample_services (inr "test explained") (inr five_results) (inr "Summary text").

(** The language model is down. *)
Definition mute_services : services nat :=
  sample_services (inl (Exception "RuntimeError" "model unavailable")) (inr sample_results)
                  (inl (Exception "RuntimeError" "model unavailable")).


(** The language model pads its answers with white space, a no-break space
    and an em space among it. *)
Definition padded_response : string :=
  utf8 0xA0 +:+ " test explained" +:+ utf8 0x2003 +:+ LF.

Definition padded_services : services nat :=
  sample_services (inr padded_response) (inr sample_results)
                  (inr (" Summary text" +:+ LF)).

(** The language model answers with white space only: an ideographic
    space, a no-break space, a line separator, a space and a newline. *)
Definition blank_response : string :=
  utf8 0x3000 +:+ utf8 0xA0 +:+ utf8 0x2028 +:+ " " +:+ LF.

Definition blank_services : services nat :=
  sample_services (inr blank_response) (inr sample_results) (inr "Summary text").

(** The third call fails: with [test_queries] that is the enhancer's call
    for the second query. *)
Definition flaky_services : services nat :=
  mkServices nat
    (λ prompt calls,
       (if (calls =? 3)%nat then inl (Exception "RuntimeError" "model unavailable")
        else if String.prefix "Enhance" prompt then inr "test explained"
        else inr "Summary text", S calls))
    (λ _ _ calls, (inr sample_results, S calls)).

(** * Properties *)

(** ** Strings *)

Lemma string_app_cons c (a b : string) : String c a +:+ b = String c (a +:+ b).
Proof. done. Qed.
Lemma string_app_nil (a : string) : "" +:+ a = a.
Proof. done. Qed.
Lemma string_app_nil_r (a : string) : a +:+ "" = a.
Proof. induction a as [|c a IH]; [done|]. by rewrite string_app_cons, IH. Qed.
Lemma string_app_assoc (a b c : string) : (a +:+ b) +:+ c = a +:+ (b +:+ c).
Proof.
  induction a as [|x a IH]; [done|].
  by rewrite !string_app_cons, IH.
Qed.

Lemma concat_cons (c : string) cs : String.concat "" (c :: cs) = c +:+ String.concat "" cs.
Proof. destruct cs; cbn [String.concat]; [by rewrite string_app_nil_r|done]. Qed.

Lemma concat_app (l1 l2 : list string) :
  String.concat "" (l1 ++ l2) = String.concat "" l1 +:+ String.concat "" l2.
Proof.
  induction l1 as [|c l1 IH]; [done|].
  by rewrite <- app_comm_cons, !concat_cons, IH, string_app_assoc.
Qed.

Lemma code_points_cons b s : ∃ c cs, code_points (String b s) = c :: cs.
Proof. cbn [code_points]. destruct (code_points s); [|destruct (continues s)]; eauto. Qed.

(** A string is the concatenation of its characters. *)
Lemma concat_code_points s : String.concat "" (code_points s) = s.
Proof.
  induction s as [|b s IH]; [done|]. cbn [code_points].
  destruct (code_points s) as [|c cs].
  - cbn in IH. by subst s.
  - destruct (continues s).
    + by rewrite concat_cons, string_app_cons, <- concat_cons, IH.
    + by rewrite concat_cons, string_app_cons, string_app_nil, IH.
Qed.

Lemma code_points_nonempty s : Forall (λ c, c ≠ "") (code_points s).
Proof.
  induction s as [|b s IH]; [constructor|]. cbn [code_points].
  destruct (code_points s) as [|c cs]; [by repeat constructor|].
  inversion_clear IH. destruct (continues s); by repeat constructor.
Qed.

(** A byte, continuation bytes, and then a text that starts a new
    character: the first character is that byte with those bytes. *)
Lemma code_points_step b s :
  code_points (String b s)
  = match code_points s with
    | c :: cs => if continues s then String b c :: cs else String b "" :: c :: cs
    | [] => [String b ""]
    end.
Proof. done. Qed.

Lemma code_points_char b rest t :
  all_continuation rest = true →
  continues t = false →
  code_points (String b (rest +:+ t)) = String b rest :: code_points t.
Proof.
  revert b. induction rest as [|r rest IH]; intros b Hrest Ht.
  - rewrite string_app_nil, code_points_step.
    destruct (code_points t) as [|c cs]; [done|]. by rewrite Ht.
  - cbn in Hrest. apply andb_prop in Hrest as [Hr Hrest].
    rewrite string_app_cons, code_points_step, (IH r Hrest Ht). cbn [continues].
    by rewrite Hr.
Qed.

Lemma continues_concat cs :
  Forall (λ c, well_formed c = true) cs → continues (String.concat "" cs) = false.
Proof.
  destruct 1 as [|c cs Hc _]; [done|]. rewrite concat_cons.
  destruct c as [|b rest]; [done|]. cbn in Hc. apply andb_prop in Hc as [Hb _].
  rewrite string_app_cons. cbn. by apply negb_true_iff.
Qed.

(** The characters of a concatenation of whole characters are these
    characters. *)
Lemma code_points_concat cs :
  Forall (λ c, well_formed c = true) cs → code_points (String.concat "" cs) = cs.
Proof.
  induction 1 as [|c cs Hc Hcs IH]; [done|]. rewrite concat_cons.
  destruct c as [|b rest]; [done|]. cbn in Hc. apply andb_prop in Hc as [_ Hrest].
  rewrite string_app_cons, code_points_char, IH; auto using continues_concat.
Qed.

Lemma whitespace_well_formed c : c ∈ whitespace_characters → well_formed c = true.
Proof.
  intros Hc.
  assert (forallb well_formed whitespace_characters = true) as Hall
    by (vm_compute; reflexivity).
  rewrite forallb_forall in Hall. by apply Hall, list_elem_of_In.
Qed.

Lemma isspace_true c : isspace c = true ↔ c ∈ whitespace_characters.
Proof. apply bool_decide_eq_true. Qed.

Lemma isspace_false c : isspace c = false ↔ c ∉ whitespace_characters.
Proof. apply bool_decide_eq_false. Qed.

Lemma lstrip_chars_split cs :
  ∃ l, cs = l ++ lstrip_chars cs ∧ Forall (λ c, c ∈ whitespace_characters) l ∧
       ∀ c, head (lstrip_chars cs) = Some c → c ∉ whitespace_characters.
Proof.
  induction cs as [|c cs (l & Hcs & Hl & Hhead)]; cbn [lstrip_chars].
  - by exists [].
  - destruct (isspace c) eqn:Hc.
    + exists (c :: l). rewrite <- app_comm_cons, <- Hcs.
      split; [done|]. split; [|done]. constructor; [by apply isspace_true|done].
    + exists []. split; [done|]. split; [constructor|].
      intros c' [= <-]. by apply isspace_false.
Qed.

Lemma rstrip_chars_split cs :
  ∃ r, cs = rstrip_chars cs ++ r ∧ Forall (λ c, c ∈ whitespace_characters) r ∧
       ∀ c, last (rstrip_chars cs) = Some c → c ∉ whitespace_characters.
Proof.
  induction cs as [|c cs (r & Hcs & Hr & Hlast)]; cbn [rstrip_chars].
  - by exists [].
  - destruct (rstrip_chars cs) as [|c' cs'] eqn:Hrs.
    + cbn [app] in Hcs. subst r.
      destruct (isspace c) eqn:Hc.
      * exists (c :: cs). split; [done|]. split; [|done].
        constructor; [by apply isspace_true|done].
      * exists cs. split; [done|]. split; [done|].
        intros c' [= <-]. by apply isspace_false.
    + exists r. rewrite <- app_comm_cons, <- Hcs. split; [done|]. split; [done|].
      intros c0. rewrite last_cons_cons. apply Hlast.
Qed.

Lemma rstrip_chars_head cs c :
  head (rstrip_chars cs) = Some c → head cs = Some c.
Proof.
  destruct cs as [|c0 cs]; [done|]. cbn [rstrip_chars].
  destruct (rstrip_chars cs); [destruct (isspace c0)|]; done.
Qed.

(** On the characters: [strip] removes white space at each end and
    nothing else. *)
Lemma strip_chars_spec s :
  ∃ left middle right,
    code_points s = left ++ middle ++ right ∧
    strip s = String.concat "" middle ∧
    Forall (λ c, c ∈ whitespace_characters) left ∧
    Forall (λ c, c ∈ whitespace_characters) right ∧
    (∀ c, head middle = Some c → c ∉ whitespace_characters) ∧
    (∀ c, last middle = Some c → c ∉ whitespace_characters).
Proof.
  destruct (lstrip_chars_split (code_points s)) as (l & Hl & Hleft & Hhead).
  destruct (rstrip_chars_split (lstrip_chars (code_points s))) as (r & Hr & Hright & Hlast).
  exists l, (rstrip_chars (lstrip_chars (code_points s))), r.
  split; [by rewrite <- Hr|]. split; [done|]. split; [done|]. split; [done|].
  split; [|done]. intros c Hc%rstrip_chars_head. auto.
Qed.


Lemma lstrip_chars_whitespace cs :
  Forall (λ c, c ∈ whitespace_characters) cs → lstrip_chars cs = [].
Proof.
  induction 1 as [|c cs Hc%isspace_true _ IH]; [done|].
  cbn [lstrip_chars]. by rewrite Hc.
Qed.

Lemma strip_whitespace s :
  Forall (λ c, c ∈ whitespace_characters) (code_points s) → strip s = "".
Proof. intros H. unfold strip. by rewrite lstrip_chars_whitespace. Qed.

Lemma well_formed_started c : well_formed c = true → started c = true.
Proof. destruct c as [|b rest]; [done|]. cbn. by intros [_ ?]%andb_prop. Qed.

Lemma code_points_head b s : ∃ rest cs, code_points (String b s) = String b rest :: cs.
Proof.
  rewrite code_points_step. destruct (code_points s); [|destruct (continues s)]; eauto.
Qed.

(** The list of characters of a string: continuation bytes after the byte
    that starts each character; only the first may start with a stray
    continuation byte. *)
Lemma characters_code_points s : characters (code_points s).
Proof.
  induction s as [|b s IH]; [done|]. rewrite code_points_step.
  destruct s as [|b' s]; [done|].
  destruct (code_points_head b' s) as (rest & cs & Hcs). rewrite Hcs in IH |- *.
  destruct IH as [Hrest Hcs']. cbn [continues].
  destruct (is_continuation b') eqn:Hb'.
  - split; [|done]. cbn. by rewrite Hb'.
  - split; [done|]. constructor; [|done]. cbn. by rewrite Hb'.
Qed.

Lemma characters_app_r l m : characters (l ++ m) → characters m.
Proof.
  destruct l as [|c l]; [done|]. intros [_ H]. apply Forall_app in H as [_ H].
  destruct m as [|c' m]; [done|]. inversion_clear H. split; [|done].
  by apply well_formed_started.
Qed.

Lemma characters_app_l l m : characters (l ++ m) → characters l.
Proof.
  destruct l as [|c l]; [done|]. intros [Hc H]. apply Forall_app in H as [H _]. done.
Qed.

Lemma code_points_characters cs : characters cs → code_points (String.concat "" cs) = cs.
Proof.
  destruct cs as [|c cs]; [done|]. intros [Hc Hcs]. rewrite concat_cons.
  destruct c as [|b rest]; [done|].
  by rewrite string_app_cons, code_points_char, code_points_concat;
    auto using continues_concat.
Qed.

Lemma code_points_strip s :
  code_points (strip s) = rstrip_chars (lstrip_chars (code_points s)).
Proof.
  destruct (lstrip_chars_split (code_points s)) as (l & Hl & _).
  destruct (rstrip_chars_split (lstrip_chars (code_points s))) as (r & Hr & _).
  apply code_points_characters.
  pose proof (characters_code_points s) as H. rewrite Hl, Hr in H.
  eapply characters_app_l, characters_app_r, H.
Qed.

Lemma forallb_isspace cs :
  forallb isspace cs = true ↔ Forall (λ c, c ∈ whitespace_characters) cs.
Proof.
  induction cs as [|c cs IH]; [done|].
  cbn [forallb]. by rewrite andb_true_iff, Forall_cons, IH, isspace_true.
Qed.

Lemma all_space_Forall s :
  all_space s = true ↔ Forall (λ c, c ∈ whitespace_characters) (code_points s).
Proof. apply forallb_isspace. Qed.

Lemma all_space_concat cs :
  Forall (λ c, c ∈ whitespace_characters) cs → all_space (String.concat "" cs) = true.
Proof.
  intros H. apply all_space_Forall. rewrite code_points_concat; [done|].
  eapply Forall_impl; [exact H|]. apply whitespace_well_formed.
Qed.

(** [strip] removes a run of white space at each end and nothing else. *)
Lemma strip_spec s :
  ∃ l r, s = l +:+ strip s +:+ r ∧ all_space l = true ∧ all_space r = true ∧
         starts_with_space (strip s) = false ∧ ends_with_space (strip s) = false.
Proof.
  destruct (strip_chars_spec s) as (left & middle & right & Hs & Hstrip & Hl & Hr & Hhead & Hlast).
  exists (String.concat "" left), (String.concat "" right).
  split; [by rewrite Hstrip, <- !concat_app, <- Hs, concat_code_points|].
  split; [by apply all_space_concat|]. split; [by apply all_space_concat|].
  assert (code_points (strip s) = middle) as Hmiddle.
  { rewrite Hstrip. apply code_points_characters.
    pose proof (characters_code_points s) as H. rewrite Hs in H.
    eapply characters_app_l, characters_app_r, H. }
  unfold starts_with_space, ends_with_space. rewrite Hmiddle. split.
  - destruct middle as [|c middle]; [done|]. by apply isspace_false, Hhead.
  - destruct (last middle) as [c|] eqn:Hc; [|done]. by apply isspace_false, Hlast.
Qed.

Lemma lstrip_chars_id cs :
  (∀ c, head cs = Some c → isspace c = false) → lstrip_chars cs = cs.
Proof. destruct cs as [|c cs]; [done|]. intros H. cbn. by rewrite (H c). Qed.

Lemma rstrip_chars_id cs :
  (∀ c, last cs = Some c → isspace c = false) → rstrip_chars cs = cs.
Proof.
  induction cs as [|c cs IH]; [done|]. intros H. cbn [rstrip_chars].
  destruct cs as [|c' cs].
  - cbn. by rewrite (H c).
  - rewrite IH; [done|]. intros c0 Hc0. apply H. by rewrite last_cons_cons.
Qed.

(** [strip] changes nothing exactly when there is no white space at either
    end. *)
Lemma strip_id_iff s :
  strip s = s ↔ starts_with_space s = false ∧ ends_with_space s = false.
Proof.
  split.
  - intros Hid. destruct (strip_spec s) as (l & r & _ & _ & _ & Hstart & Hend).
    by rewrite Hid in Hstart, Hend.
  - unfold starts_with_space, ends_with_space, strip. intros [Hstart Hend].
    rewrite lstrip_chars_id, rstrip_chars_id; [apply concat_code_points| |].
    + intros c Hc. by rewrite Hc in Hend.
    + intros c Hc. destruct (code_points s); [done|]. by injection Hc as ->.
Qed.

Lemma concat_empty cs : Forall (λ c, c ≠ "") cs → String.concat "" cs = "" → cs = [].
Proof.
  destruct 1 as [|c cs Hc _]; [done|]. rewrite concat_cons. by destruct c.
Qed.

(** [strip] gives the empty string exactly for white space only. *)
Lemma strip_empty_iff s : strip s = "" ↔ all_space s = true.
Proof.
  rewrite all_space_Forall. split; [|apply strip_whitespace].
  intros Hempty.
  destruct (strip_chars_spec s) as (left & middle & right & Hs & Hstrip & Hl & Hr & _).
  pose proof (code_points_nonempty s) as Hne. rewrite Hs in Hne.
  apply Forall_app in Hne as [_ [Hne _]%Forall_app].
  rewrite Hstrip in Hempty. apply concat_empty in Hempty; [|done]. subst middle.
  rewrite Hs. by apply Forall_app.
Qed.

Lemma py_or_nonempty a b : a ≠ "" → py_or a b = a.
Proof. intros H. unfold py_or. by destruct a. Qed.


(** ** Runs *)

Ltac unfold_monad := unfold mbind, prog_bind, mret, prog_ret in *.

Section Runs.
Context {World : Type} (svc : services World).

Lemma run_bind {A B} (p : prog A) (f : A → prog B) w :
  run svc (bind p f) w = and_then (run svc p w) (λ a, run svc (f a)).
Proof.
  revert w. induction p as [a|e|text k IH|prompt k IH|keywords n k IH]; intros w; simpl.
  - unfold and_then; simpl. by destruct (run svc (f a) w).
  - done.
  - rewrite IH. unfold and_then, seen; simpl.
    by destruct (outcome (run svc k w)).
  - destruct (llm_answer svc prompt w) as [answer w']. rewrite IH.
    unfold and_then, seen; simpl.
    by destruct (outcome (run svc (k answer) w')).
  - destruct (ddgs_answer svc keywords n w) as [answer w']. rewrite IH.
    unfold and_then, seen; simpl.
    by destruct (outcome (run svc (k answer) w')).
Qed.

Lemma run_try_except {A} (body : prog A) (handler : exn → prog A) w :
  run svc (try_except body handler) w
  = or_else (run svc body w) (λ e, run svc (handler e)).
Proof.
  revert w. induction body as [a|e|text k IH|prompt k IH|keywords n k IH]; intros w; simpl.
  - done.
  - unfold or_else; simpl. by destruct (run svc (handler e) w).
  - rewrite IH. unfold or_else, seen; simpl.
    by destruct (outcome (run svc k w)).
  - destruct (llm_answer svc prompt w) as [answer w']. rewrite IH.
    unfold or_else, seen; simpl.
    by destruct (outcome (run svc (k answer) w')).
  - destruct (ddgs_answer svc keywords n w) as [answer w']. rewrite IH.
    unfold or_else, seen; simpl.
    by destruct (outcome (run svc (k answer) w')).
Qed.

(** The loop over the results makes no call: it appends one entry and
    prints one line per result. *)
Lemma run_collect_results items acc w :
  run svc (collect_results items acc) w
  = mkRan (inr (acc ++ map (λ '(i, r), format_result i (dict_get r "title" "No title")
                                        (dict_get r "body" "No description")) items))
          (map (λ '(i, r), Printed ("   → Found result " +:+ pretty i +:+ ": " +:+
                                     str_prefix 50 (dict_get r "title" "No title") +:+ "..."))
               items)
          w.
Proof.
  revert acc. induction items as [|[i r] items IH]; intros acc; simpl.
  - by rewrite app_nil_r.
  - unfold_monad. simpl. rewrite IH. unfold seen; simpl.
    by rewrite <- app_assoc.
Qed.

Lemma map_enumerate {B} (f : nat → result → B) (l : list result) start :
  map (λ '(i, r), f i r) (enumerate l start) = imap (λ pos r, f (start + pos) r) l.
Proof.
  revert start f. induction l as [|x l IH]; intros start f; simpl; [done|].
  rewrite Nat.add_0_r. f_equal. rewrite IH. apply imap_ext.
  intros pos r _. simpl. f_equal. lia.
Qed.

(** *** The enhancer *)

Lemma run_enhance_query_node state w :
  run svc (enhance_query_node state) w
  = let '(answer, w') := llm_answer svc (enhance_prompt (query state)) w in
    mkRan (match answer with
           | inl e => inl e
           | inr content => inr (set_enhanced_query (strip content))
           end)
          ([Printed (LF +:+ "🎯 Enhance Query Node");
            Printed ("   Original query: '" +:+ query state +:+ "'");
            AskedLlm (enhance_prompt (query state)) answer] ++
           match answer with
           | inl _ => []
           | inr content => [Printed ("   Enhanced query: '" +:+ strip content +:+ "'")]
           end)
          w'.
Proof.
  unfold enhance_query_node. unfold_monad. simpl.
  destruct (llm_answer svc _ w) as [[e|content] w']; done.
Qed.

(** *** The search stage *)

Lemma run_search_body results w :
  run svc (search_results ← collect_results (enumerate results 1) [];
     match search_results with
     | [] =>
         let search_results := [no_results_found] in
         print "   → No results found" ;;
         mret search_results
     | _ :: _ => mret search_results
     end) w
  = mkRan (inr match results with
               | [] => [no_results_found]
               | _ => imap (λ pos r, format_result (1 + pos)
                                      (dict_get r "title" "No title")
                                      (dict_get r "body" "No description")) results
               end)
           match results with
           | [] => [Printed "   → No results found"]
           | _ =>
               imap (λ pos r, Printed ("   → Found result " +:+ pretty (1 + pos) +:+ ": " +:+
                                str_prefix 50 (dict_get r "title" "No title") +:+ "..."))
                    results
           end w.
Proof.
  unfold_monad. rewrite run_bind, run_collect_results.
  rewrite !(map_enumerate _ results 1). unfold and_then. cbn [outcome trace world_after app].
  destruct results as [|r results].
  - reflexivity.
  - cbn [imap]. cbn [run outcome trace world_after]. by rewrite app_nil_r.
Qed.
Lemma run_search_tool_node state w :
  run svc (search_tool_node state) w
  = let '(answer, w') := ddgs_answer svc (search_query state) 3 w in
    mkRan (inr (set_search_results
                  match answer with
                  | inl e => [search_error e]
                  | inr [] => [no_results_found]
                  | inr results => imap (λ pos r, format_result (1 + pos)
                                      (dict_get r "title" "No title")
                                      (dict_get r "body" "No description")) results
                  end))
          ([Printed (LF +:+ "🦆 Search Tool Node (DuckDuckGo)");
            Printed ("   Searching for: '" +:+ search_query state +:+ "'");
            AskedDdgs (search_query state) 3 answer] ++
           match answer with
           | inl e => [Printed ("   ⚠️ Search error: " +:+ str_of_exn e)]
           | inr [] => [Printed "   → No results found"]
           | inr results =>
               imap (λ pos r, Printed ("   → Found result " +:+ pretty (1 + pos) +:+ ": " +:+
                                str_prefix 50 (dict_get r "title" "No title") +:+ "..."))
                    results
           end)
          w'.
Proof.
  unfold search_tool_node, print, ddgs_text. unfold_monad. cbn [bind run try_except].
  destruct (ddgs_answer svc _ 3 w) as [[e|results] w']; cbn [returned bind try_except].
  - reflexivity.
  - rewrite run_bind, run_try_except.
    pose proof (run_search_body results w') as Hbody. unfold_monad. unfold print in Hbody.
    cbn [bind] in Hbody. rewrite Hbody.
    unfold and_then, or_else, seen. cbn [outcome trace world_after run app].
    destruct results; rewrite ?app_nil_r; reflexivity.
Qed.

Lemma ddgs_queries_app t1 t2 : ddgs_queries (t1 ++ t2) = ddgs_queries t1 ++ ddgs_queries t2.
Proof. apply omap_app. Qed.

Lemma ddgs_queries_imap_printed {B} (f : nat → B → string) (l : list B) :
  ddgs_queries (imap (λ pos r, Printed (f pos r)) l) = [].
Proof.
  revert f. induction l as [|x l IH]; intros f; [done|]. apply (IH (f ∘ S)).
Qed.

Lemma ddgs_queries_search_tool_node state w :
  ddgs_queries (trace (run svc (search_tool_node state) w)) = [(search_query state, 3)].
Proof.
  rewrite run_search_tool_node.
  destruct (ddgs_answer svc _ 3 w) as [[e|[|r results]] w']; try done.
  cbn [trace]. rewrite ddgs_queries_app, ddgs_queries_imap_printed. done.
Qed.

(** *** The summarizer *)

Lemma run_summarize_node state w :
  run svc (summarize_node state) w
  = let prompt := summarize_prompt (query state) (join LF (search_results state)) in
    let '(answer, w') := llm_answer svc prompt w in
    mkRan (match answer with
           | inl e => inl e
           | inr content => inr (set_summary content)
           end)
          ([Printed (LF +:+ "📝 Summarize Node"); AskedLlm prompt answer] ++
           match answer with
           | inl _ => []
           | inr content =>
               [Printed ("   → Generated summary (" +:+ pretty (str_len content) +:+
                         " chars)")]
           end)
          w'.
Proof.
  unfold summarize_node. unfold_monad. simpl.
  destruct (llm_answer svc _ w) as [[e|content] w']; done.
Qed.

(** *** The formatter *)

Lemma run_format_output_node state w :
  run svc (format_output_node state) w
  = mkRan (inr (whole_state state))
          [Printed (LF +:+ "📤 Format Output Node"); Printed (output state)] w.
Proof. done. Qed.

Lemma merge_whole_state state : merge state (whole_state state) = state.
Proof. by destruct state. Qed.

(** *** The workflow *)

Lemma run_invoke_cons name node nodes state w :
  run svc (invoke ((name, node) :: nodes) state) w
  = and_then (run svc (node state) w) (λ u, run svc (invoke nodes (merge state u))).
Proof. simpl. unfold_monad. apply run_bind. Qed.

Lemma run_invoke_nil state w : run svc (invoke [] state) w = mkRan (inr state) [] w.
Proof. done. Qed.

(** The stages from the summarizer on. *)
Lemma run_summarize_format state w :
  run svc (invoke (drop 2 workflow) state) w
  = let prompt := summarize_prompt (query state) (join LF (search_results state)) in
    let '(answer, w') := llm_answer svc prompt w in
    match answer with
    | inl e => mkRan (inl e) [Printed (LF +:+ "📝 Summarize Node"); AskedLlm prompt answer] w'
    | inr content =>
        let final := merge state (set_summary content) in
        mkRan (inr final)
              [Printed (LF +:+ "📝 Summarize Node"); AskedLlm prompt answer;
               Printed ("   → Generated summary (" +:+ pretty (str_len content) +:+
                        " chars)");
               Printed (LF +:+ "📤 Format Output Node"); Printed (output final)]
              w'
    end.
Proof.
  cbn [drop workflow]. rewrite run_invoke_cons, run_summarize_node. cbn zeta.
  destruct (llm_answer svc _ w) as [[e|content] w']; [done|].
  unfold and_then. cbn [outcome trace world_after].
  rewrite run_invoke_cons, run_format_output_node.
  unfold and_then. cbn [outcome trace world_after].
  rewrite run_invoke_nil. cbn [outcome trace world_after].
  by rewrite merge_whole_state.
Qed.
End Runs.

(** ** The search stage *)

Section SearchStage.
Context {World : Type} (svc : services World).

(** The stages after the enhancer, when the search service raises and the
    summarizer answers. *)
Lemma run_from_search_error state w e w' content w'' :
  ddgs_answer svc (search_query state) 3 w = (inl e, w') →
  llm_answer svc (summarize_prompt (query state) (search_error e)) w' = (inr content, w'') →
  let final := mkToolState (query state) (enhanced_query state) [search_error e] content in
  ∃ t, run svc (invoke (drop 1 workflow) state) w
       = mkRan (inr final) (t ++ [Printed (output final)]) w''.
Proof.
  intros Hraise Hllm final.
  change (drop 1 workflow) with (("search_tool", search_tool_node) :: drop 2 workflow).
  rewrite run_invoke_cons, run_search_tool_node, Hraise.
  unfold and_then. cbn [outcome trace world_after].
  rewrite run_summarize_format. cbn zeta.
  change (summarize_prompt _ _) with (summarize_prompt (query state) (search_error e)).
  rewrite Hllm. cbn [outcome trace world_after].
  match goal with
  | |- context [?l ++ [?a; ?b; ?c; ?d; ?x]] =>
      change (l ++ [a; b; c; d; x]) with (l ++ ([a; b; c; d] ++ [x]))
  end.
  rewrite app_assoc. by eexists.
Qed.

(** C1. When the search service raises [e], the search stage returns
    [search_results] with the single entry
    ["Search error: " + str(e) + ". Using fallback data."].  The workflow goes
    on: the summarizer is asked about that entry, and once it answers, the
    formatter prints the report and the invocation returns the final state;
    so does the whole workflow when the search stage runs after the
    enhancer. *)
Theorem search_error_recovered state w e w' :
  ddgs_answer svc (search_query state) 3 w = (inl e, w') →
  let entry := "Search error: " +:+ str_of_exn e +:+ ". Using fallback data." in
  outcome (run svc (search_tool_node state) w) = inr (set_search_results [entry]) ∧
  (∀ answer w'',
     llm_answer svc (summarize_prompt (query state) entry) w' = (answer, w'') →
     let r := run svc (invoke (drop 1 workflow) state) w in
     AskedLlm (summarize_prompt (query state) entry) answer ∈ trace r ∧
     ∀ content, answer = inr content →
       let final := mkToolState (query state) (enhanced_query state) [entry] content in
       outcome r = inr final ∧ last (trace r) = Some (Printed (output final))) ∧
  (∀ state0 w0 enhanced content w'',
     llm_answer svc (enhance_prompt (query state0)) w0 = (inr enhanced, w) →
     state = merge state0 (set_enhanced_query (strip enhanced)) →
     llm_answer svc (summarize_prompt (query state) entry) w' = (inr content, w'') →
     let r := run svc (app_invoke state0) w0 in
     let final := mkToolState (query state0) (strip enhanced) [entry] content in
     outcome r = inr final ∧ last (trace r) = Some (Printed (output final))).
Proof.
  intros Hraise entry.
  pose proof (run_search_tool_node svc state w) as Hrun. rewrite Hraise in Hrun.
  split; [by rewrite Hrun|]. split.
  - intros answer w'' Hllm r. split.
    + subst r.
      change (drop 1 workflow) with (("search_tool", search_tool_node) :: drop 2 workflow).
      rewrite run_invoke_cons, Hrun. unfold and_then. cbn [outcome trace world_after].
      rewrite run_summarize_format. cbn zeta.
      change (summarize_prompt _ _) with (summarize_prompt (query state) entry).
      rewrite Hllm. apply elem_of_app. right.
      destruct answer; cbn [trace]; set_solver.
    + intros content -> final.
      destruct (run_from_search_error state w e w' content w'' Hraise Hllm) as [t Ht].
      subst r. rewrite Ht. split; [done|]. apply last_snoc.
  - intros state0 w0 enhanced content w'' Henhance Hstate Hllm r final.
    destruct (run_from_search_error state w e w' content w'' Hraise Hllm) as [t Ht].
    subst r. unfold app_invoke.
    change workflow with (("enhance_query", enhance_query_node) :: drop 1 workflow).
    rewrite run_invoke_cons, run_enhance_query_node, Henhance.
    unfold and_then. cbn [outcome trace world_after].
    rewrite <- Hstate, Ht. cbn [outcome trace]. subst state.
    split; [done|]. rewrite app_assoc. apply last_snoc.
Qed.

(** C2. When the search service returns [N ≥ 1] results (at most 3 were
    asked for), [search_results] has exactly [N] entries, the entry at each
    position being ["{index}. {title}: {description}"] for the result at
    that position, with the 1-based index and the placeholders
    ["No title"] and ["No description"] for missing fields. *)
Theorem search_results_formatted state w results w' :
  ddgs_answer svc (search_query state) 3 w = (inr results, w') →
  (1 ≤ length results ≤ 3)%nat →
  ∃ entries,
    outcome (run svc (search_tool_node state) w) = inr (set_search_results entries) ∧
    length entries = length results ∧
    ∀ pos r, results !! pos = Some r → entries !! pos = Some (expected_entry pos r).
Proof.
  intros Hfound [Hpos _].
  rewrite run_search_tool_node, Hfound.
  destruct results as [|r0 results]; [simpl in Hpos; lia|].
  eexists. split; [done|]. split; [by rewrite length_imap|].
  intros pos r Hr. rewrite list_lookup_imap, Hr. simpl. f_equal.
  unfold expected_entry, format_result, dict_get.
  rewrite Nat.add_1_r. by destruct (r !! "title"), (r !! "body").
Qed.

(** C3. When the search service returns no result, [search_results] is
    exactly [["No results found. Try a different query."]]. *)
Theorem no_results_placeholder state w w' :
  ddgs_answer svc (search_query state) 3 w = (inr [], w') →
  outcome (run svc (search_tool_node state) w)
  = inr (set_search_results ["No results found. Try a different query."]).
Proof. intros Hnone. by rewrite run_search_tool_node, Hnone. Qed.

(** C4. The search stage asks the search service once, for at most 3
    results, and the query it sends is [enhanced_query] when that is not
    empty and the original [query] when it is. *)
Theorem search_sends_enhanced_or_original state w :
  let asked := ddgs_queries (trace (run svc (search_tool_node state) w)) in
  (enhanced_query state ≠ "" → asked = [(enhanced_query state, 3)]) ∧
  (enhanced_query state = "" → asked = [(query state, 3)]).
Proof.
  intros asked. subst asked. rewrite ddgs_queries_search_tool_node.
  unfold search_query. split; intros H.
  - by rewrite py_or_nonempty.
  - by rewrite H.
Qed.
End SearchStage.

Lemma search_error_recovered_witness :
  outcome (run timeout_services (search_tool_node (mkToolState "test" "test explained" [] "")) 1)
  = inr (set_search_results ["Search error: timeout. Using fallback data."]) ∧
  outcome (run timeout_services (app_invoke (initial_state "test")) 0)
  = inr (mkToolState "test" "test explained" ["Search error: timeout. Using fallback data."]
                     "Summary text").
Proof.
  pose proof (search_error_recovered timeout_services
                (mkToolState "test" "test explained" [] "") 1
                (Exception "ConnectionError" "timeout") 2 eq_refl) as (Hnode & _ & Hwhole).
  split; [exact Hnode|].
  exact (proj1 (Hwhole (initial_state "test") 0 "test explained" "Summary text" 3
                  eq_refl eq_refl eq_refl)).
Defined.

Lemma search_results_formatted_witness :
  ∃ entries,
    outcome (run working_services (search_tool_node (initial_state "test")) 1)
    = inr (set_search_results entries) ∧
    length entries = 2 ∧
    ∀ pos r, sample_results !! pos = Some r → entries !! pos = Some (expected_entry pos r).
Proof.
  apply (search_results_formatted working_services (initial_state "test") 1 sample_results 2).
  - reflexivity.
  - simpl. lia.
Defined.

Lemma no_results_placeholder_witness :
  outcome (run empty_services (search_tool_node (initial_state "test")) 1)
  = inr (set_search_results ["No results found. Try a different query."]).
Proof.
  apply (no_results_placeholder empty_services (initial_state "test") 1 2). reflexivity.
Defined.

Lemma search_sends_enhanced_or_original_witness :
  ddgs_queries (trace (run working_services
                         (search_tool_node (mkToolState "test" "test explained" [] "")) 1))
  = [("test explained", 3)] ∧
  ddgs_queries (trace (run working_services (search_tool_node (initial_state "test")) 1))
  = [("test", 3)].
Proof.
  split.
  - apply (search_sends_enhanced_or_original working_services
             (mkToolState "test" "test explained" [] "") 1). discriminate.
  - apply (search_sends_enhanced_or_original working_services (initial_state "test") 1).
    reflexivity.
Defined.

(** ** The fields each stage writes *)

Section Fields.
Context {World : Type} (svc : services World).

Lemma outcome_and_then {A B} (r : ran World A) (f : A → World → ran World B) b :
  outcome (and_then r f) = inr b →
  ∃ a, outcome r = inr a ∧ outcome (f a (world_after r)) = inr b.
Proof.
  unfold and_then. destruct (outcome r) as [e|a]; [done|]. intros H. by exists a.
Qed.

(** A chain of nodes that all keep [query] keeps [query]. *)
Lemma invoke_keeps_query nodes :
  Forall (λ '(_, node), ∀ state w u,
            outcome (run svc (node state) w) = inr u →
            query (merge state u) = query state) nodes →
  ∀ state w final,
    outcome (run svc (invoke nodes state) w) = inr final → query final = query state.
Proof.
  induction 1 as [|[name node] nodes Hnode _ IH]; intros state w final.
  - rewrite run_invoke_nil. by intros [= <-].
  - rewrite run_invoke_cons. intros (u & Hu & Hrest)%outcome_and_then.
    rewrite (IH _ _ _ Hrest). eauto.
Qed.

Lemma enhance_query_node_writes state w u :
  outcome (run svc (enhance_query_node state) w) = inr u →
  ∃ enhanced, u = set_enhanced_query enhanced.
Proof.
  rewrite run_enhance_query_node.
  destruct (llm_answer svc _ w) as [[e|content] w']; [done|].
  intros [= <-]. eauto.
Qed.

Lemma search_tool_node_writes state w u :
  outcome (run svc (search_tool_node state) w) = inr u →
  ∃ entries, u = set_search_results entries.
Proof.
  rewrite run_search_tool_node.
  destruct (ddgs_answer svc _ 3 w) as [answer w']. intros [= <-]. eauto.
Qed.

Lemma summarize_node_writes state w u :
  outcome (run svc (summarize_node state) w) = inr u →
  ∃ content, u = set_summary content.
Proof.
  rewrite run_summarize_node. cbn zeta.
  destruct (llm_answer svc _ w) as [[e|content] w']; [done|].
  intros [= <-]. eauto.
Qed.

(** C5. A stage writes its own field only: the dict the enhancer returns
    has the single key [enhanced_query], that of the search stage
    [search_results], that of the summarizer [summary], and merging it
    leaves the other fields as they were; the formatter returns the state,
    which merges to the same state; [query] at the end of an invocation is
    the [query] it started with. *)
Theorem stages_write_own_field state w :
  (∀ u, outcome (run svc (enhance_query_node state) w) = inr u →
        keys u = ["enhanced_query"] ∧
        query (merge state u) = query state ∧
        search_results (merge state u) = search_results state ∧
        summary (merge state u) = summary state) ∧
  (∀ u, outcome (run svc (search_tool_node state) w) = inr u →
        keys u = ["search_results"] ∧
        query (merge state u) = query state ∧
        enhanced_query (merge state u) = enhanced_query state ∧
        summary (merge state u) = summary state) ∧
  (∀ u, outcome (run svc (summarize_node state) w) = inr u →
        keys u = ["summary"] ∧
        query (merge state u) = query state ∧
        enhanced_query (merge state u) = enhanced_query state ∧
        search_results (merge state u) = search_results state) ∧
  (∀ u, outcome (run svc (format_output_node state) w) = inr u →
        merge state u = state) ∧
  (∀ final, outcome (run svc (app_invoke state) w) = inr final →
            query final = query state).
Proof.
  split; [|split; [|split; [|split]]].
  - by intros u [? ->]%enhance_query_node_writes.
  - by intros u [? ->]%search_tool_node_writes.
  - by intros u [? ->]%summarize_node_writes.
  - intros u. rewrite run_format_output_node. intros [= <-]. apply merge_whole_state.
  - apply invoke_keeps_query. unfold workflow. repeat constructor.
    + by intros st w0 u [? ->]%enhance_query_node_writes.
    + by intros st w0 u [? ->]%search_tool_node_writes.
    + by intros st w0 u [? ->]%summarize_node_writes.
    + intros st w0 u. rewrite run_format_output_node. by intros [= <-].
Qed.
End Fields.

Lemma stages_write_own_field_witness :
  keys (set_enhanced_query "test explained") = ["enhanced_query"] ∧
  query (mkToolState "test" "test explained" ["1. A: B"; "2. C: D"] "Summary text") = "test".
Proof.
  pose proof (stages_write_own_field working_services (initial_state "test") 0)
    as (Henhance & _ & _ & _ & Hquery).
  split.
  - exact (proj1 (Henhance (set_enhanced_query "test explained") eq_refl)).
  - exact (Hquery (mkToolState "test" "test explained" ["1. A: B"; "2. C: D"] "Summary text")
             eq_refl).
Defined.

(** ** The formatter *)

(** C6. The report depends on the record only: two invocations of the
    formatter on the same record, in any two environments, print the same
    text, make no call, and return the record, which merges to the same
    record; invoked again on the merged record it prints the same text
    again. *)
Theorem formatter_pure {World1 World2 : Type} (svc1 : services World1)
    (svc2 : services World2) state w1 w2 :
  let r1 := run svc1 (format_output_node state) w1 in
  let r2 := run svc2 (format_output_node state) w2 in
  trace r1 = trace r2 ∧
  printed (trace r1) = [LF +:+ "📤 Format Output Node"; output state] ∧
  outcome r1 = inr (whole_state state) ∧
  merge state (whole_state state) = state ∧
  world_after r1 = w1 ∧
  trace (run svc1 (u ← format_output_node state; format_output_node (merge state u)) w1)
  = trace r1 ++ trace r1.
Proof.
  cbn zeta. rewrite !run_format_output_node.
  split; [done|]. split; [done|]. split; [done|].
  split; [apply merge_whole_state|]. split; [done|].
  unfold_monad. rewrite run_bind, run_format_output_node. unfold and_then.
  cbn [outcome trace world_after]. by rewrite merge_whole_state, run_format_output_node.
Qed.

(** ** The test loop *)

Section Driver.
Context {World : Type} (svc : services World).

Lemma llm_prompts_app t1 t2 : llm_prompts (t1 ++ t2) = llm_prompts t1 ++ llm_prompts t2.
Proof. apply omap_app. Qed.

Lemma run_test_query query w :
  run svc (test_query query) w
  = seen (Printed (LF +:+ "🔎 Testing: '" +:+ query +:+ "'"))
      (seen (Printed (str_mul "-" 40))
         (or_else
            (and_then (run svc (app_invoke (initial_state query)) w)
                      (λ _, run svc (print search_completed)))
            (λ e, run svc (print (error_during_search e))))).
Proof.
  unfold test_query, print. unfold_monad. cbn [bind run].
  by rewrite run_try_except, run_bind.
Qed.

(** No exception leaves the body of the loop. *)
Lemma test_query_returns query w : outcome (run svc (test_query query) w) = inr tt.
Proof.
  rewrite run_test_query. unfold seen, or_else, and_then. cbn [outcome].
  destruct (outcome (run svc (app_invoke _) w)) as [e|final]; cbn [outcome]; done.
Qed.

Lemma llm_prompts_printed text t : llm_prompts (Printed text :: t) = llm_prompts t.
Proof. done. Qed.

Lemma llm_prompts_imap_printed {B} (f : nat → B → string) (l : list B) :
  llm_prompts (imap (λ pos r, Printed (f pos r)) l) = [].
Proof.
  revert f. induction l as [|x l IH]; intros f; [done|]. apply (IH (f ∘ S)).
Qed.

(** The search stage asks the language model nothing. *)
Lemma llm_prompts_search_tool_node state w :
  llm_prompts (trace (run svc (search_tool_node state) w)) = [].
Proof.
  rewrite run_search_tool_node.
  destruct (ddgs_answer svc _ 3 w) as [[e|[|r results]] w']; try done.
  cbn [trace]. by rewrite llm_prompts_app, llm_prompts_imap_printed.
Qed.

Lemma search_tool_node_returns state w :
  ∃ u, outcome (run svc (search_tool_node state) w) = inr u.
Proof.
  rewrite run_search_tool_node. destruct (ddgs_answer svc _ 3 w). by eexists.
Qed.

(** An invocation sends the enhancer's prompt for its query, once, and no
    other prompt of that kind. *)
Lemma llm_prompts_app_invoke state w :
  filter is_enhance_prompt (llm_prompts (trace (run svc (app_invoke state) w)))
  = [enhance_prompt (query state)].
Proof.
  unfold app_invoke.
  change workflow with (("enhance_query", enhance_query_node) ::
                        ("search_tool", search_tool_node) :: drop 2 workflow).
  rewrite run_invoke_cons, run_enhance_query_node.
  destruct (llm_answer svc _ w) as [[e|content] w']; [done|].
  unfold and_then at 1. cbn [outcome trace world_after].
  rewrite run_invoke_cons.
  pose proof (llm_prompts_search_tool_node (merge state (set_enhanced_query (strip content))) w')
    as Hnone.
  destruct (search_tool_node_returns (merge state (set_enhanced_query (strip content))) w')
    as [u Hu].
  unfold and_then. rewrite Hu. cbn [outcome trace world_after].
  rewrite !llm_prompts_app, Hnone, run_summarize_format. cbn zeta.
  destruct (llm_answer svc _ _) as [[e|summary] w'']; done.
Qed.

(** The body of the loop asks the language model what the invocation asks. *)
Lemma llm_prompts_test_query q w :
  llm_prompts (trace (run svc (test_query q) w))
  = llm_prompts (trace (run svc (app_invoke (initial_state q)) w)).
Proof.
  rewrite run_test_query. unfold seen, or_else, and_then.
  destruct (outcome (run svc (app_invoke _) w)); cbn [outcome trace world_after run print seen];
    by rewrite !llm_prompts_printed, llm_prompts_app, app_nil_r.
Qed.

Lemma for_each_test_query queries w :
  let r := run svc (for_each queries test_query) w in
  outcome r = inr tt ∧
  filter is_enhance_prompt (llm_prompts (trace r)) = map enhance_prompt queries.
Proof.
  revert w. induction queries as [|q queries IH]; intros w; cbn zeta.
  - done.
  - cbn [for_each]. unfold_monad. rewrite run_bind. unfold and_then.
    rewrite test_query_returns. cbn [outcome trace world_after].
    destruct (IH (world_after (run svc (test_query q) w))) as [Hout Hsent].
    split; [done|].
    by rewrite llm_prompts_app, filter_app, Hsent, llm_prompts_test_query,
      llm_prompts_app_invoke.
Qed.

(** C7. The loop runs the workflow on a fresh record for each of the test
    queries, one after the other.  When the invocation for a query raises,
    the loop body catches the exception, prints it and returns; so the loop
    as a whole never raises, and the enhancer's prompts sent during the loop
    are exactly those of the test queries, one for each, in the order of the
    list, whatever happened to the queries before. *)
Theorem every_test_query_runs w :
  (∀ q w0 e,
     outcome (run svc (app_invoke (initial_state q)) w0) = inl e →
     let r0 := run svc (test_query q) w0 in
     outcome r0 = inr tt ∧ last (trace r0) = Some (Printed (error_during_search e))) ∧
  let r := run svc run_tests w in
  outcome r = inr tt ∧
  filter is_enhance_prompt (llm_prompts (trace r)) = map enhance_prompt test_queries.
Proof.
  split; [|apply for_each_test_query].
  intros q w0 e Hraise r0. subst r0. split; [apply test_query_returns|].
  rewrite run_test_query. unfold seen, or_else, and_then.
  rewrite Hraise. cbn [outcome trace world_after run print].
  cbn [seen trace]. rewrite !app_comm_cons. apply last_snoc.
Qed.
End Driver.

Lemma every_test_query_runs_witness :
  outcome (run flaky_services (test_query "How to build AI agents?") 3) = inr tt ∧
  last (trace (run flaky_services (test_query "How to build AI agents?") 3))
  = Some (Printed "❌ Error during search: model unavailable").
Proof.
  exact (proj1 (every_test_query_runs flaky_services 0) "How to build AI agents?" 3
           (Exception "RuntimeError" "model unavailable") eq_refl).
Defined.

(** The batch scenario: the enhancer fails for the second query; the first
    and the third query complete, the second prints the error. *)
Example batch_scenario :
  filter (λ line, bool_decide (line = search_completed) ||
                  String.prefix "❌ Error during search: " line)
         (printed (trace (run flaky_services run_tests 0)))
  = [search_completed; "❌ Error during search: model unavailable"; search_completed].
Proof. vm_compute. reflexivity. Qed.

(** ** The enhancer and the summarizer *)

Section LanguageModel.
Context {World : Type} (svc : services World).

(** C8. The enhancer asks the model with its template around the query
    and stores the response with the white space at both ends removed:
    the response is white space, then the stored text, then white space,
    and the stored text neither starts nor ends with a white-space
    character.  The summarizer asks the model with its template around the
    original query and the entries of [search_results] joined by newlines,
    and stores the response as it is. *)
Theorem enhancer_trims_summarizer_keeps state w content w' :
  (let prompt :=
     "Enhance this search query to get better results. " +:+ LF +:+
     "    Make it more specific and add relevant keywords." +:+ LF +:+
     "    Original query: " +:+ query state +:+ LF +:+
     "    Enhanced query (return only the query, no explanation):" in
   llm_answer svc prompt w = (inr content, w') →
   ∃ enhanced,
     llm_prompts (trace (run svc (enhance_query_node state) w)) = [prompt] ∧
     outcome (run svc (enhance_query_node state) w) = inr (set_enhanced_query enhanced) ∧
     enhanced_query (merge state (set_enhanced_query enhanced)) = enhanced ∧
     ∃ l r, content = l +:+ enhanced +:+ r ∧
            all_space l = true ∧ all_space r = true ∧
            starts_with_space enhanced = false ∧ ends_with_space enhanced = false) ∧
  (let prompt :=
     "Summarize these search results for the query '" +:+ query state +:+ "':" +:+ LF +:+
     LF +:+
     String.concat LF (search_results state) +:+ LF +:+
     LF +:+
     "Provide a concise, helpful summary:" in
   llm_answer svc prompt w = (inr content, w') →
   let r := run svc (summarize_node state) w in
   llm_prompts (trace r) = [prompt] ∧
   outcome r = inr (set_summary content) ∧
   summary (merge state (set_summary content)) = content).
Proof.
  split.
  - intros prompt Hllm. exists (strip content).
    change prompt with (enhance_prompt (query state)) in Hllm |- *.
    rewrite run_enhance_query_node, Hllm. split; [done|]. split; [done|]. split; [done|].
    apply strip_spec.
  - intros prompt Hllm r. subst r.
    change prompt with (summarize_prompt (query state) (join LF (search_results state)))
      in Hllm |- *.
    rewrite run_summarize_node. cbn zeta. by rewrite Hllm.
Qed.

(** C10. When the model's response is white space only, [enhanced_query]
    becomes the empty string, the search stage sends the original query,
    and the state the search stage sees is the one an empty response
    gives. *)
Theorem whitespace_enhancement_falls_back state w content w' :
  all_space content = true →
  llm_answer svc (enhance_prompt (query state)) w = (inr content, w') →
  ∃ u, outcome (run svc (enhance_query_node state) w) = inr u ∧
       enhanced_query (merge state u) = "" ∧
       merge state u = merge state (set_enhanced_query (strip "")) ∧
       ∀ w1, ddgs_queries (trace (run svc (search_tool_node (merge state u)) w1))
             = [(query state, 3)].
Proof.
  intros Hspace Hllm. eexists.
  rewrite run_enhance_query_node, Hllm. split; [done|].
  rewrite (proj2 (strip_empty_iff content) Hspace). split; [done|]. split; [done|].
  intros w1. by rewrite ddgs_queries_search_tool_node.
Qed.

(** The report shows the number of entries of [search_results]. *)
Lemma output_results_found state :
  occurs_in (LF +:+ "Results Found: " +:+ pretty (length (search_results state)) +:+ LF)
            (output state).
Proof.
  exists (LF +:+ str_mul "=" 50 +:+ LF +:+ "🔍 SEARCH RESULTS" +:+ LF +:+
          str_mul "=" 50 +:+ LF +:+ "Query: " +:+ query state +:+ LF +:+
          "Enhanced: " +:+ enhanced_query state +:+ LF),
         (LF +:+ "Summary:" +:+ LF +:+ summary state +:+ LF +:+ str_mul "=" 50 +:+ LF).
  unfold output. by rewrite !string_app_assoc.
Qed.

(** C9. Whatever the search service does (it raises, returns nothing, or
    returns up to 3 results), the search stage leaves between 1 and 3
    entries in [search_results]; the report's ["Results Found: "] line shows
    that number, which is 1 when the service raised or found nothing. *)
Theorem search_results_nonempty_bounded state w answer w' :
  ddgs_answer svc (search_query state) 3 w = (answer, w') →
  (∀ results, answer = inr results → (length results ≤ 3)%nat) →
  ∃ u, outcome (run svc (search_tool_node state) w) = inr u ∧
       let n := length (search_results (merge state u)) in
       (1 ≤ n ≤ 3)%nat ∧
       occurs_in (LF +:+ "Results Found: " +:+ pretty n +:+ LF) (output (merge state u)) ∧
       ((∀ results, answer = inr results → results = []) → n = 1%nat).
Proof.
  intros Hservice Hbound. eexists.
  rewrite run_search_tool_node, Hservice. split; [done|]. cbn zeta.
  split; [|split].
  - destruct answer as [e|[|r results]]; cbn; [lia..|].
    rewrite length_imap. specialize (Hbound _ eq_refl). simpl in Hbound. lia.
  - apply output_results_found.
  - intros Hnothing. destruct answer as [e|results]; [done|].
    by rewrite (Hnothing results eq_refl).
Qed.
End LanguageModel.

Lemma enhancer_trims_summarizer_keeps_witness :
  (∃ enhanced,
     llm_prompts (trace (run padded_services (enhance_query_node (initial_state "test")) 0))
     = [enhance_prompt "test"] ∧
     outcome (run padded_services (enhance_query_node (initial_state "test")) 0)
     = inr (set_enhanced_query enhanced) ∧
     enhanced_query (merge (initial_state "test") (set_enhanced_query enhanced)) = enhanced ∧
     ∃ l r, padded_response = l +:+ enhanced +:+ r ∧
            all_space l = true ∧ all_space r = true ∧
            starts_with_space enhanced = false ∧ ends_with_space enhanced = false) ∧
  outcome (run padded_services (summarize_node (mkToolState "test" "" ["1. A: B"] "")) 1)
  = inr (set_summary (" Summary text" +:+ LF)).
Proof.
  split.
  - exact (proj1 (enhancer_trims_summarizer_keeps padded_services (initial_state "test") 0
                    padded_response 1) eq_refl).
  - exact (proj1 (proj2 (proj2 (enhancer_trims_summarizer_keeps padded_services
                    (mkToolState "test" "" ["1. A: B"] "") 1 (" Summary text" +:+ LF) 2)
                    eq_refl))).
Defined.

Lemma whitespace_enhancement_falls_back_witness :
  ∃ u, outcome (run blank_services (enhance_query_node (initial_state "test")) 0) = inr u ∧
       enhanced_query (merge (initial_state "test") u) = "" ∧
       merge (initial_state "test") u
       = merge (initial_state "test") (set_enhanced_query (strip "")) ∧
       ∀ w1, ddgs_queries (trace (run blank_services
                                    (search_tool_node (merge (initial_state "test") u)) w1))
             = [("test", 3)].
Proof.
  apply (whitespace_enhancement_falls_back blank_services (initial_state "test") 0
           blank_response 1); reflexivity.
Defined.

Lemma search_results_nonempty_bounded_witness :
  ∃ u, outcome (run timeout_services (search_tool_node (initial_state "test")) 0) = inr u ∧
       let n := length (search_results (merge (initial_state "test") u)) in
       (1 ≤ n ≤ 3)%nat ∧
       occurs_in (LF +:+ "Results Found: " +:+ pretty n +:+ LF)
                 (output (merge (initial_state "test") u)) ∧
       ((∀ results : list result,
           inl (Exception "ConnectionError" "timeout") = inr results → results = []) →
        n = 1%nat).
Proof.
  apply (search_results_nonempty_bounded timeout_services (initial_state "test") 0
           (inl (Exception "ConnectionError" "timeout")) 1).
  - reflexivity.
  - intros results Hresults. discriminate Hresults.
Defined.

(** ** The scenarios of the specification *)

(** The model enhances ["test"] to ["test explained"], the search finds two
    results, the model summarizes: the final state and the report. *)
Example end_to_end_scenario :
  let r := run working_services (app_invoke (initial_state "test")) 0 in
  outcome r = inr (mkToolState "test" "test explained" ["1. A: B"; "2. C: D"] "Summary text") ∧
  last (printed (trace r))
  = Some (LF +:+ str_mul "=" 50 +:+ LF +:+ "🔍 SEARCH RESULTS" +:+ LF +:+ str_mul "=" 50 +:+ LF +:+
          "Query: test" +:+ LF +:+ "Enhanced: test explained" +:+ LF +:+ LF +:+
          "Results Found: 2" +:+ LF +:+ LF +:+ "Summary:" +:+ LF +:+ "Summary text" +:+ LF +:+
          str_mul "=" 50 +:+ LF).
Proof. vm_compute. done. Qed.

(** The search service raises [ConnectionError("timeout")]: the workflow
    still returns, with the fallback entry. *)
Example end_to_end_failure_scenario :
  outcome (run timeout_services (app_invoke (initial_state "test")) 0)
  = inr (mkToolState "test" "test explained"
                     ["Search error: timeout. Using fallback data."] "Summary text").
Proof. vm_compute. done. Qed.

(** A result without title or body gets the placeholders. *)
Example placeholders_scenario :
  outcome (run (sample_services (inr "q") (inr [ {[ "href" := "h" ]}; {[ "title" := "T" ]} ])
                                (inr "s"))
               (search_tool_node (initial_state "test")) 0)
  = inr (set_search_results ["1. No title: No description"; "2. T: No description"]).
Proof. vm_compute. done. Qed.

Example strip_examples :
  strip ("  a b " +:+ LF) = "a b" ∧ strip "   " = "" ∧ strip "" = "" ∧ strip "ab" = "ab" ∧
  strip (utf8 0xA0 +:+ "test explained" +:+ utf8 0x2003) = "test explained" ∧
  strip (utf8 0x3000 +:+ utf8 0xA0 +:+ utf8 0x2028) = "" ∧
  strip (" é " +:+ utf8 0x85) = "é".
Proof. vm_compute. done. Qed.

(** Characters, not bytes: a title of 60 [é] is cut to 50 of them, and a
    summary of three [é] has 3 characters. *)
Example characters_examples :
  str_prefix 50 (str_mul "é" 60) = str_mul "é" 50 ∧
  str_len (str_mul "é" 60) = 60 ∧
  str_len "ééé" = 3 ∧
  str_prefix 50 "short title" = "short title" ∧
  code_points "a🔎é" = ["a"; "🔎"; "é"] ∧
  utf8 0x1F50E = "🔎".
Proof. vm_compute. done. Qed.

(** * Further properties *)

(** ** The search stage, whatever the service does *)

Section SearchStageMore.
Context {World : Type} (svc : services World).

Lemma expected_entry_format pos r :
  format_result (1 + pos) (dict_get r "title" "No title") (dict_get r "body" "No description")
  = expected_entry pos r.
Proof.
  unfold expected_entry, format_result, dict_get. rewrite Nat.add_1_r.
  by destruct (r !! "title"), (r !! "body").
Qed.

(** What the node returns, in terms of the service's answer. *)
Lemma outcome_search_tool_node state w :
  outcome (run svc (search_tool_node state) w)
  = inr (set_search_results (entries_for (ddgs_answer svc (search_query state) 3 w).1)).
Proof.
  rewrite run_search_tool_node.
  destruct (ddgs_answer svc _ 3 w) as [[e|[|r results]] w']; try done.
  cbn [outcome fst entries_for]. do 2 f_equal. apply imap_ext.
  intros pos r' _. apply expected_entry_format.
Qed.

Lemma entries_for_nonempty answer : entries_for answer ≠ [].
Proof. by destruct answer as [e|[|r results]]. Qed.

(** The search stage never raises: for every answer of the service, an
    exception included, it returns a dict with a non-empty [search_results];
    it asks the language model nothing, and the world changes by the one
    search call only. *)
Theorem search_stage_never_raises state w :
  let r := run svc (search_tool_node state) w in
  (∃ entries, outcome r = inr (set_search_results entries) ∧ entries ≠ []) ∧
  llm_prompts (trace r) = [] ∧
  world_after r = (ddgs_answer svc (search_query state) 3 w).2.
Proof.
  cbn zeta. split; [|split].
  - eexists. split; [apply outcome_search_tool_node|apply entries_for_nonempty].
  - apply llm_prompts_search_tool_node.
  - rewrite run_search_tool_node. by destruct (ddgs_answer svc _ 3 w).
Qed.

(** The search stage does not cap the list itself: it asks the service for
    at most 3 results, and formats every result the service returns, how many
    they may be. *)
Theorem search_results_not_capped state w results w' :
  ddgs_answer svc (search_query state) 3 w = (inr results, w') →
  results ≠ [] →
  ∃ entries,
    outcome (run svc (search_tool_node state) w) = inr (set_search_results entries) ∧
    length entries = length results ∧
    ∀ pos r, results !! pos = Some r → entries !! pos = Some (expected_entry pos r).
Proof.
  intros Hfound Hsome. eexists. split; [apply outcome_search_tool_node|].
  rewrite Hfound. destruct results as [|r0 results]; [done|]. cbn [fst entries_for].
  split; [by rewrite length_imap|].
  intros pos r Hr. by rewrite list_lookup_imap, Hr.
Qed.

(** With at least one result, the first entry starts with ["1. "]: the list
    is neither the no-results placeholder nor a fallback entry, so a reader
    of [search_results] can tell results from placeholders. *)
Theorem results_differ_from_placeholders state w results w' :
  ddgs_answer svc (search_query state) 3 w = (inr results, w') →
  results ≠ [] →
  ∃ first others,
    outcome (run svc (search_tool_node state) w)
    = inr (set_search_results (("1. " +:+ first) :: others)) ∧
    ("1. " +:+ first) :: others ≠ [no_results_found] ∧
    ∀ e, ("1. " +:+ first) :: others ≠ [search_error e].
Proof.
  intros Hfound Hsome. destruct results as [|r results]; [done|].
  exists (dict_get r "title" "No title" +:+ ": " +:+ dict_get r "body" "No description").
  eexists. rewrite outcome_search_tool_node, Hfound. cbn [fst entries_for imap].
  rewrite <- expected_entry_format. unfold format_result.
  change (pretty (1 + 0)) with "1". split; [done|]. split; [done|]. by intros e.
Qed.
End SearchStageMore.

Lemma search_results_not_capped_witness :
  ∃ entries,
    outcome (run generous_services (search_tool_node (initial_state "test")) 1)
    = inr (set_search_results entries) ∧
    length entries = 5 ∧
    ∀ pos r, five_results !! pos = Some r → entries !! pos = Some (expected_entry pos r).
Proof.
  apply (search_results_not_capped generous_services (initial_state "test") 1 five_results 2).
  - reflexivity.
  - discriminate.
Defined.

Lemma results_differ_from_placeholders_witness :
  ∃ first others,
    outcome (run working_services (search_tool_node (initial_state "test")) 1)
    = inr (set_search_results (("1. " +:+ first) :: others)) ∧
    ("1. " +:+ first) :: others ≠ [no_results_found] ∧
    ∀ e, ("1. " +:+ first) :: others ≠ [search_error e].
Proof.
  apply (results_differ_from_placeholders working_services (initial_state "test") 1
           sample_results 2).
  - reflexivity.
  - discriminate.
Defined.

(** ** An invocation of the workflow *)

Section Invocation.
Context {World : Type} (svc : services World).

Lemma calls_app t1 t2 : calls (t1 ++ t2) = calls t1 ++ calls t2.
Proof. apply omap_app. Qed.

Lemma calls_imap_printed {B} (f : nat → B → string) (l : list B) :
  calls (imap (λ pos r, Printed (f pos r)) l) = [].
Proof.
  revert f. induction l as [|x l IH]; intros f; [done|]. apply (IH (f ∘ S)).
Qed.

Lemma calls_search_tool_node state w :
  calls (trace (run svc (search_tool_node state) w))
  = [AskedDdgs (search_query state) 3 (ddgs_answer svc (search_query state) 3 w).1].
Proof.
  rewrite run_search_tool_node.
  destruct (ddgs_answer svc _ 3 w) as [[e|[|r results]] w']; try done.
  cbn [trace fst]. by rewrite calls_app, calls_imap_printed.
Qed.

Lemma world_after_search_tool_node state w :
  world_after (run svc (search_tool_node state) w)
  = (ddgs_answer svc (search_query state) 3 w).2.
Proof. rewrite run_search_tool_node. by destruct (ddgs_answer svc _ 3 w). Qed.

(** The invocation when the enhancer's call fails. *)
Lemma run_app_invoke_raised state w e w1 :
  llm_answer svc (enhance_prompt (query state)) w = (inl e, w1) →
  run svc (app_invoke state) w
  = mkRan (inl e)
          [Printed (LF +:+ "🎯 Enhance Query Node");
           Printed ("   Original query: '" +:+ query state +:+ "'");
           AskedLlm (enhance_prompt (query state)) (inl e)]
          w1.
Proof.
  intros Hllm. unfold app_invoke.
  change workflow with (("enhance_query", enhance_query_node) :: drop 1 workflow).
  by rewrite run_invoke_cons, run_enhance_query_node, Hllm.
Qed.

(** The invocation when the enhancer's call answers: the search stage and
    the last two stages follow. *)
Lemma run_app_invoke_enhanced state w content w1 :
  llm_answer svc (enhance_prompt (query state)) w = (inr content, w1) →
  let state1 := merge state (set_enhanced_query (strip content)) in
  let r2 := run svc (search_tool_node state1) w1 in
  let entries := entries_for (ddgs_answer svc (search_query state1) 3 w1).1 in
  let r3 := run svc (invoke (drop 2 workflow) (merge state1 (set_search_results entries)))
                (world_after r2) in
  run svc (app_invoke state) w
  = mkRan (outcome r3)
          ([Printed (LF +:+ "🎯 Enhance Query Node");
            Printed ("   Original query: '" +:+ query state +:+ "'");
            AskedLlm (enhance_prompt (query state)) (inr content);
            Printed ("   Enhanced query: '" +:+ strip content +:+ "'")] ++
           trace r2 ++ trace r3)
          (world_after r3).
Proof.
  intros Hllm state1 r2 entries r3. unfold app_invoke.
  change workflow with (("enhance_query", enhance_query_node) ::
                        ("search_tool", search_tool_node) :: drop 2 workflow).
  rewrite run_invoke_cons, run_enhance_query_node, Hllm.
  unfold and_then at 1. cbn [outcome trace world_after].
  rewrite run_invoke_cons. unfold and_then.
  fold state1. fold r2. subst r3 entries.
  pose proof (outcome_search_tool_node svc state1 w1) as Hout. fold r2 in Hout.
  rewrite Hout. by cbn [outcome trace world_after].
Qed.

(** The search query after the enhancer stored [enhanced]. *)
Lemma search_query_merge state enhanced :
  search_query (merge state (set_enhanced_query enhanced))
  = match enhanced with "" => query state | _ => enhanced end.
Proof. by destruct enhanced. Qed.
(** The last two stages after the search stage stored [entries_for found]. *)
Lemma run_after_search state content found (w2 : World) :
  let state1 := merge state (set_enhanced_query (strip content)) in
  let prompt := summarize_prompt (query state) (String.concat LF (entries_for found)) in
  run svc (invoke (drop 2 workflow) (merge state1 (set_search_results (entries_for found)))) w2
  = let '(answer, w3) := llm_answer svc prompt w2 in
    match answer with
    | inl e => mkRan (inl e) [Printed (LF +:+ "📝 Summarize Node"); AskedLlm prompt answer] w3
    | inr summary =>
        let final := mkToolState (query state) (strip content) (entries_for found) summary in
        mkRan (inr final)
              [Printed (LF +:+ "📝 Summarize Node"); AskedLlm prompt answer;
               Printed ("   → Generated summary (" +:+ pretty (str_len summary) +:+
                        " chars)");
               Printed (LF +:+ "📤 Format Output Node"); Printed (output final)]
              w3
    end.
Proof.
  cbn zeta. rewrite run_summarize_format. cbn zeta.
  change (summarize_prompt _ _)
    with (summarize_prompt (query state) (String.concat LF (entries_for found))).
  by destruct (llm_answer svc _ w2) as [[e|summary] w3].
Qed.

(** An invocation makes its calls in a fixed order and never repeats one:
    either the enhancer's call fails and is the only call, or the calls are
    the enhancer's, one search (for the trimmed response, or for the original
    query when that is empty) and the summarizer's (about the original query
    and the entries stored by the search stage); the invocation returns the
    record of the four values, or raises what the summarizer's call raised. *)
Theorem invocation_calls state w :
  let r := run svc (app_invoke state) w in
  (∃ e, calls (trace r) = [AskedLlm (enhance_prompt (query state)) (inl e)] ∧
        outcome r = inl e) ∨
  (∃ content found answer,
     calls (trace r)
     = [AskedLlm (enhance_prompt (query state)) (inr content);
        AskedDdgs (match strip content with "" => query state | _ => strip content end)
                  3 found;
        AskedLlm (summarize_prompt (query state) (String.concat LF (entries_for found)))
                 answer] ∧
     outcome r = match answer with
                 | inl e => inl e
                 | inr summary =>
                     inr (mkToolState (query state) (strip content) (entries_for found) summary)
                 end).
Proof.
  cbn zeta. destruct (llm_answer svc (enhance_prompt (query state)) w) as [[e|content] w1] eqn:H1.
  - left. exists e. by rewrite (run_app_invoke_raised _ _ _ _ H1).
  - right. rewrite (run_app_invoke_enhanced _ _ _ _ H1). cbn zeta.
    rewrite world_after_search_tool_node, search_query_merge.
    destruct (ddgs_answer svc _ 3 w1) as [found w2] eqn:H2. cbn [fst snd].
    rewrite run_after_search. cbn zeta.
    destruct (llm_answer svc _ w2) as [answer w3] eqn:H3.
    exists content, found, answer. cbn [trace outcome].
    rewrite !calls_app, calls_search_tool_node, search_query_merge, H2.
    split; by destruct answer.
Qed.

(** When the enhancer's call raises, the invocation raises the same
    exception at once: no search is made, the summarizer is not asked, and
    the failed call is the last thing that happens. *)
Theorem enhancer_failure_skips_search state w e w1 :
  llm_answer svc (enhance_prompt (query state)) w = (inl e, w1) →
  let r := run svc (app_invoke state) w in
  outcome r = inl e ∧
  ddgs_queries (trace r) = [] ∧
  llm_prompts (trace r) = [enhance_prompt (query state)] ∧
  last (trace r) = Some (AskedLlm (enhance_prompt (query state)) (inl e)) ∧
  world_after r = w1.
Proof. intros H1. cbn zeta. by rewrite (run_app_invoke_raised _ _ _ _ H1). Qed.


(** When the three calls answer, the invocation returns the record with the
    original query, the trimmed response of the enhancer, the entries for
    the search answer and the summary, and the last thing it does is print
    the report of that record. *)
Theorem invocation_success state w content w1 found w2 summary w3 :
  llm_answer svc (enhance_prompt (query state)) w = (inr content, w1) →
  ddgs_answer svc (match strip content with "" => query state | _ => strip content end) 3 w1
  = (found, w2) →
  llm_answer svc (summarize_prompt (query state) (String.concat LF (entries_for found))) w2
  = (inr summary, w3) →
  let r := run svc (app_invoke state) w in
  let final := mkToolState (query state) (strip content) (entries_for found) summary in
  outcome r = inr final ∧
  last (trace r) = Some (Printed (output final)) ∧
  world_after r = w3.
Proof.
  intros H1 H2 H3. cbn zeta. rewrite (run_app_invoke_enhanced _ _ _ _ H1). cbn zeta.
  rewrite world_after_search_tool_node, search_query_merge, H2. cbn [fst snd].
  rewrite run_after_search. cbn zeta. rewrite H3. cbn [outcome trace world_after].
  split; [done|]. split; [|done].
  rewrite !app_assoc.
  match goal with
  | |- last (?l ++ [?a; ?b; ?c; ?d; ?x]) = _ =>
      change (l ++ [a; b; c; d; x]) with (l ++ [a; b; c; d] ++ [x])
  end.
  rewrite app_assoc. apply last_snoc.
Qed.

(** An invocation reads nothing but [query] from the record it is given:
    values already in [enhanced_query], [search_results] or [summary] have
    no effect on what it asks, prints or returns. *)
Theorem invocation_depends_on_query_only state w :
  run svc (app_invoke state) w = run svc (app_invoke (initial_state (query state))) w.
Proof.
  destruct (llm_answer svc (enhance_prompt (query state)) w) as [[e|content] w1] eqn:H1.
  - rewrite (run_app_invoke_raised state _ _ _ H1).
    by rewrite (run_app_invoke_raised (initial_state (query state)) _ _ _ H1).
  - rewrite (run_app_invoke_enhanced state _ _ _ H1).
    rewrite (run_app_invoke_enhanced (initial_state (query state)) _ _ _ H1). cbn zeta.
    rewrite !world_after_search_tool_node, !search_query_merge.
    rewrite !run_search_tool_node, !search_query_merge. cbn [initial_state query].
    destruct (ddgs_answer svc _ 3 w1) as [found w2]. cbn [fst snd trace].
    by rewrite (run_after_search state), (run_after_search (initial_state (query state))).
Qed.
End Invocation.

Lemma enhancer_failure_skips_search_witness :
  let r := run mute_services (app_invoke (initial_state "test")) 0 in
  outcome r = inl (Exception "RuntimeError" "model unavailable") ∧
  ddgs_queries (trace r) = [] ∧
  llm_prompts (trace r) = [enhance_prompt "test"] ∧
  last (trace r)
  = Some (AskedLlm (enhance_prompt "test")
                   (inl (Exception "RuntimeError" "model unavailable"))) ∧
  world_after r = 1.
Proof.
  apply (enhancer_failure_skips_search mute_services (initial_state "test") 0
           (Exception "RuntimeError" "model unavailable") 1).
  reflexivity.
Defined.


Lemma invocation_success_witness :
  let r := run working_services (app_invoke (initial_state "test")) 0 in
  let final := mkToolState "test" (strip "test explained") (entries_for (inr sample_results))
                           "Summary text" in
  outcome r = inr final ∧ last (trace r) = Some (Printed (output final)) ∧ world_after r = 3.
Proof.
  apply (invocation_success working_services (initial_state "test") 0
           "test explained" 1 (inr sample_results) 2 "Summary text" 3); reflexivity.
Defined.

(** ** The loop: reports *)

Section LoopMore.
Context {World : Type} (svc : services World).


End LoopMore.

(** ** The calls of the loop *)

Section LoopCalls.
Context {World : Type} (svc : services World).

Lemma ddgs_queries_after_search state content found (w2 : World) :
  ddgs_queries (trace (run svc (invoke (drop 2 workflow)
     (merge (merge state (set_enhanced_query (strip content)))
            (set_search_results (entries_for found)))) w2)) = [].
Proof.
  rewrite run_after_search. cbn zeta.
  by destruct (llm_answer svc _ w2) as [[e|summary] w3].
Qed.

Lemma llm_prompts_after_search state content found (w2 : World) :
  length (llm_prompts (trace (run svc (invoke (drop 2 workflow)
     (merge (merge state (set_enhanced_query (strip content)))
            (set_search_results (entries_for found)))) w2))) = 1.
Proof.
  rewrite run_after_search. cbn zeta.
  by destruct (llm_answer svc _ w2) as [[e|summary] w3].
Qed.

(** An invocation asks the language model once or twice and searches at
    most once. *)
Lemma app_invoke_call_counts state w :
  let t := trace (run svc (app_invoke state) w) in
  (1 ≤ length (llm_prompts t) ≤ 2)%nat ∧ (length (ddgs_queries t) ≤ 1)%nat.
Proof.
  cbn zeta.
  destruct (llm_answer svc (enhance_prompt (query state)) w) as [[e|content] w1] eqn:H1.
  - rewrite (run_app_invoke_raised svc _ _ _ _ H1). cbn. lia.
  - rewrite (run_app_invoke_enhanced svc _ _ _ _ H1). cbn zeta. cbn [trace].
    rewrite !llm_prompts_app, !ddgs_queries_app, llm_prompts_search_tool_node,
      ddgs_queries_search_tool_node, ddgs_queries_after_search, !length_app,
      llm_prompts_after_search.
    cbn. lia.
Qed.

(** The body of the loop adds lines only: two before the invocation and the
    report after it. *)
Lemma trace_test_query q w :
  ∃ line, trace (run svc (test_query q) w)
          = [Printed (LF +:+ "🔎 Testing: '" +:+ q +:+ "'"); Printed (str_mul "-" 40)] ++
            trace (run svc (app_invoke (initial_state q)) w) ++ [Printed line].
Proof.
  rewrite run_test_query. unfold seen, or_else, and_then.
  destruct (outcome (run svc (app_invoke _) w)) as [e|final];
    cbn [outcome trace world_after run print seen]; by eexists.
Qed.

(** The loop makes no call of its own and never repeats one: for [n]
    queries the language model is asked at least [n] and at most [2 n] times,
    and at most [n] searches are made, whatever fails. *)
Theorem loop_call_bounds queries w :
  let t := trace (run svc (for_each queries test_query) w) in
  (length queries ≤ length (llm_prompts t) ≤ 2 * length queries)%nat ∧
  (length (ddgs_queries t) ≤ length queries)%nat.
Proof.
  revert w. induction queries as [|q queries IH]; intros w; cbn zeta.
  - cbn. lia.
  - cbn [for_each]. unfold_monad. rewrite run_bind. unfold and_then.
    rewrite test_query_returns. cbn [outcome trace world_after].
    specialize (IH (world_after (run svc (test_query q) w))). cbn zeta in IH.
    destruct (trace_test_query q w) as [line ->].
    pose proof (app_invoke_call_counts (initial_state q) w) as Hone. cbn zeta in Hone.
    rewrite !llm_prompts_app, !ddgs_queries_app, !length_app.
    change (llm_prompts [Printed _; Printed _]) with (@nil string).
    change (llm_prompts [Printed line]) with (@nil string).
    change (ddgs_queries [Printed _; Printed _]) with (@nil (string * nat)).
    change (ddgs_queries [Printed line]) with (@nil (string * nat)).
    cbn [length]. lia.
Qed.
End LoopCalls.

(** ** What the enhancer keeps of the response *)

Section EnhancerMore.
Context {World : Type} (svc : services World).

(** The enhancer stores the response as it is exactly when the response has
    no white space at either end, and stores the empty string (so that the
    search falls back to the original query) exactly when the response is
    white space only; otherwise the search stage sends the trimmed
    response. *)
Theorem enhancer_keeps_or_empties state w content w' :
  llm_answer svc (enhance_prompt (query state)) w = (inr content, w') →
  ∃ u, outcome (run svc (enhance_query_node state) w) = inr u ∧
       let state' := merge state u in
       (enhanced_query state' = content ↔
        starts_with_space content = false ∧ ends_with_space content = false) ∧
       (enhanced_query state' = "" ↔ all_space content = true) ∧
       (all_space content = false →
        ∀ w1, ddgs_queries (trace (run svc (search_tool_node state') w1))
              = [(enhanced_query state', 3)]).
Proof.
  intros Hllm. eexists. rewrite run_enhance_query_node, Hllm. split; [done|].
  cbn zeta. cbn [merge set_enhanced_query enhanced_query upd_enhanced_query default].
  split; [apply strip_id_iff|]. split; [apply strip_empty_iff|].
  intros Hsome w1. rewrite ddgs_queries_search_tool_node. unfold search_query.
  cbn [enhanced_query query]. rewrite py_or_nonempty; [done|].
  intros Hempty%strip_empty_iff. congruence.
Qed.
End EnhancerMore.

Lemma enhancer_keeps_or_empties_witness :
  ∃ u, outcome (run working_services (enhance_query_node (initial_state "test")) 0) = inr u ∧
       let state' := merge (initial_state "test") u in
       (enhanced_query state' = "test explained" ↔
        starts_with_space "test explained" = false ∧ ends_with_space "test explained" = false) ∧
       (enhanced_query state' = "" ↔ all_space "test explained" = true) ∧
       (all_space "test explained" = false →
        ∀ w1, ddgs_queries (trace (run working_services (search_tool_node state') w1))
              = [(enhanced_query state', 3)]).
Proof.
  apply (enhancer_keeps_or_empties working_services (initial_state "test") 0
           "test explained" 1).
  reflexivity.
Defined.

(** ** The completion marker *)

Ltac run_marker :=
  unfold save_completion_marker, with_open, file_write;
  unfold mbind, fileprog_bind;
  cbn [file_bind file_try_except closing file_run file_returned];
  repeat
    (match goal with
     | |- context [open_answer ?fs ?path ?mode ?w] =>
         destruct (open_answer fs path mode w) as [[?|[]] ?] eqn:?
     | |- context [write_answer ?fs ?text ?w] =>
         destruct (write_answer fs text w) as [[?|[]] ?] eqn:?
     | |- context [close_answer ?fs ?w] =>
         destruct (close_answer fs w) as [[?|[]] ?] eqn:?
     end;
     cbn [file_bind file_try_except closing file_run file_returned]).

Section Marker.
Context {World : Type} (fs : filesystem World).

(** Whatever the file system does, the block ends without an exception and
    prints exactly one line, the saved line or the skipped line with the
    exception's message; the file is closed once if it was opened and never
    otherwise, also when a write fails. *)
Theorem marker_block_never_raises w :
  let r := file_run fs save_completion_marker w in
  file_outcome r = inr tt ∧
  (file_printed (file_trace r) = [marker_saved] ∨
   ∃ e, file_printed (file_trace r) = [marker_skipped e]) ∧
  closes (file_trace r) = opens_succeeded (file_trace r) ∧
  (opens_succeeded (file_trace r) ≤ 1)%nat.
Proof.
  cbn zeta. run_marker; (split; [done|]); (split; [by eauto|]); cbn; lia.
Qed.

(** When the file opens, takes both writes and closes, the two lines of
    the marker are what was written, in this order, to [tools-complete.txt]
    opened for writing, and the saved line is printed. *)
Theorem marker_written_when_filesystem_works w w1 w2 w3 w4 :
  open_answer fs "tools-complete.txt" "w" w = (inr tt, w1) →
  write_answer fs ("TOOLS_COMPLETE" +:+ LF) w1 = (inr tt, w2) →
  write_answer fs ("Task 7: Tool integration completed successfully" +:+ LF) w2
  = (inr tt, w3) →
  close_answer fs w3 = (inr tt, w4) →
  let r := file_run fs save_completion_marker w in
  file_trace r
  = [Opened "tools-complete.txt" "w" (inr tt);
     Wrote ("TOOLS_COMPLETE" +:+ LF) (inr tt);
     Wrote ("Task 7: Tool integration completed successfully" +:+ LF) (inr tt);
     Closed (inr tt);
     FilePrinted marker_saved] ∧
  written (file_trace r)
  = "TOOLS_COMPLETE" +:+ LF +:+ "Task 7: Tool integration completed successfully" +:+ LF ∧
  file_world_after r = w4.
Proof.
  intros Hopen Hwrite1 Hwrite2 Hclose. cbn zeta.
  unfold save_completion_marker, with_open, file_write. unfold mbind, fileprog_bind.
  cbn [file_bind file_try_except closing file_run file_returned]. rewrite Hopen.
  cbn [file_bind file_try_except closing file_run file_returned]. rewrite Hwrite1.
  cbn [file_bind file_try_except closing file_run file_returned]. rewrite Hwrite2.
  cbn [file_bind file_try_except closing file_run file_returned]. rewrite Hclose.
  done.
Qed.

(** When the file cannot be opened, nothing is written or closed, and the
    skipped line carries the message of the exception. *)
Theorem marker_skipped_when_open_fails w e w1 :
  open_answer fs "tools-complete.txt" "w" w = (inl e, w1) →
  let r := file_run fs save_completion_marker w in
  file_trace r = [Opened "tools-complete.txt" "w" (inl e); FilePrinted (marker_skipped e)] ∧
  written (file_trace r) = "" ∧
  file_outcome r = inr tt.
Proof.
  intros Hopen. cbn zeta.
  unfold save_completion_marker, with_open. unfold mbind, fileprog_bind.
  cbn [file_bind file_try_except closing file_run file_returned]. by rewrite Hopen.
Qed.

End Marker.

Lemma marker_written_when_filesystem_works_witness :
  let r := file_run working_filesystem save_completion_marker 0 in
  file_trace r
  = [Opened "tools-complete.txt" "w" (inr tt);
     Wrote ("TOOLS_COMPLETE" +:+ LF) (inr tt);
     Wrote ("Task 7: Tool integration completed successfully" +:+ LF) (inr tt);
     Closed (inr tt);
     FilePrinted marker_saved] ∧
  written (file_trace r)
  = "TOOLS_COMPLETE" +:+ LF +:+ "Task 7: Tool integration completed successfully" +:+ LF ∧
  file_world_after r = 4.
Proof.
  apply (marker_written_when_filesystem_works working_filesystem 0 1 2 3 4); reflexivity.
Defined.

Lemma marker_skipped_when_open_fails_witness :
  let r := file_run readonly_filesystem save_completion_marker 0 in
  file_trace r
  = [Opened "tools-complete.txt" "w"
            (inl (Exception "PermissionError"
                            "[Errno 13] Permission denied: 'tools-complete.txt'"));
     FilePrinted (marker_skipped
                    (Exception "PermissionError"
                               "[Errno 13] Permission denied: 'tools-complete.txt'"))] ∧
  written (file_trace r) = "" ∧
  file_outcome r = inr tt.
Proof.
  apply (marker_skipped_when_open_fails readonly_filesystem 0
           (Exception "PermissionError" "[Errno 13] Permission denied: 'tools-complete.txt'") 1).
  reflexivity.
Defined.


(** A write fails on a full disk: the file is closed all the same and the
    block reports the skipped save. *)
Example marker_on_full_disk :
  let r := file_run full_filesystem save_completion_marker 0 in
  file_outcome r = inr tt ∧
  closes (file_trace r) = 1 ∧
  file_printed (file_trace r)
  = [marker_skipped (Exception "OSError" "[Errno 28] No space left on device")].
Proof. vm_compute. done. Qed.

(** ** What is printed about a result, and the report *)


Section Progress.
Context {World : Type} (svc : services World).

End Progress.


(** The report shows the four values of the record, each on a line of its
    own under its label, between lines of 50 [=]. *)
Theorem report_shows_every_field state :
  is_prefix_of (LF +:+ str_mul "=" 50 +:+ LF) (output state) ∧
  occurs_in (LF +:+ "Query: " +:+ query state +:+ LF) (output state) ∧
  occurs_in (LF +:+ "Enhanced: " +:+ enhanced_query state +:+ LF) (output state) ∧
  occurs_in (LF +:+ "Results Found: " +:+ pretty (length (search_results state)) +:+ LF)
            (output state) ∧
  occurs_in (LF +:+ "Summary:" +:+ LF +:+ summary state +:+ LF +:+ str_mul "=" 50 +:+ LF)
            (output state).
Proof.
  unfold is_prefix_of, occurs_in, output. repeat split.
  - eexists. by rewrite !string_app_assoc.
  - exists (LF +:+ str_mul "=" 50 +:+ LF +:+ "🔍 SEARCH RESULTS" +:+ LF +:+ str_mul "=" 50).
    eexists. by rewrite !string_app_assoc.
  - exists (LF +:+ str_mul "=" 50 +:+ LF +:+ "🔍 SEARCH RESULTS" +:+ LF +:+ str_mul "=" 50 +:+
            LF +:+ "Query: " +:+ query state).
    eexists. by rewrite !string_app_assoc.
  - exists (LF +:+ str_mul "=" 50 +:+ LF +:+ "🔍 SEARCH RESULTS" +:+ LF +:+ str_mul "=" 50 +:+
            LF +:+ "Query: " +:+ query state +:+ LF +:+ "Enhanced: " +:+ enhanced_query state +:+
            LF).
    eexists. by rewrite !string_app_assoc.
  - exists (LF +:+ str_mul "=" 50 +:+ LF +:+ "🔍 SEARCH RESULTS" +:+ LF +:+ str_mul "=" 50 +:+
            LF +:+ "Query: " +:+ query state +:+ LF +:+ "Enhanced: " +:+ enhanced_query state +:+
            LF +:+ LF +:+ "Results Found: " +:+ pretty (length (search_results state)) +:+ LF),
           "".
    rewrite !string_app_assoc. do 16 f_equal.
Qed.

(** ** An empty query *)

(** The search stage does not check its query: it sends the empty string
    to the search service exactly when both [enhanced_query] and [query] are
    empty. *)
Theorem search_sends_empty_only_for_empty {World : Type} (svc : services World) state w :
  ddgs_queries (trace (run svc (search_tool_node state) w)) = [("", 3)]
  ↔ enhanced_query state = "" ∧ query state = "".
Proof.
  rewrite ddgs_queries_search_tool_node. unfold search_query, py_or.
  destruct (enhanced_query state) as [|c s]; cbn [truthy].
  - split; [by intros [= ->]|by intros [_ ->]].
  - split; [by intros [=]|by intros [[=] _]].
Qed.
